(** * Round-robin load balancer (loadbalancer/main.go): model and properties

    The Go program keeps one package-level [ServerPool] (a slice of
    [*Backend] and an atomic cursor).  Its methods are embedded here as
    computations over a [World] that holds the pool, in a small state and
    panic monad.  Everything the program observes from outside (the
    monotonic clock behind [time.Now], the upstream answer to a forwarded
    request, the answer to a health probe) is read from an [Env] oracle,
    indexed by the number of observations made so far, so that every run of
    the program corresponds to one choice of oracle.

    The model is sequential: the per-backend [sync.RWMutex] and the atomic
    cursor operations are the identity on a single thread, and each method
    body runs without interleaving. *)

From Stdlib Require Import ZArith Lia Bool List String DecimalString.
From stdpp Require Import base tactics option list strings.

Local Open Scope Z_scope.

(** ** Machine integers

    Go's [int] is taken at 64 bits (amd64, arm64), [uint64] is 64 bits.
    Arithmetic wraps around silently. *)

Module GoInt.

Definition int_min : Z := - 2 ^ 63.
Definition int_max : Z := 2 ^ 63 - 1.

Definition int_wrap (z : Z) : Z := (z + 2 ^ 63) mod 2 ^ 64 - 2 ^ 63.
Definition uint64_wrap (z : Z) : Z := z mod 2 ^ 64.

Definition int_add (a b : Z) : Z := int_wrap (a + b).
Definition uint64_add (a b : Z) : Z := uint64_wrap (a + b).

(** Conversions [uint64(x)] and [int(x)]. *)
Definition uint64_of_int (z : Z) : Z := uint64_wrap z.
Definition int_of_uint64 (z : Z) : Z := int_wrap z.

Definition in_int (z : Z) : Prop := int_min <= z <= int_max.

End GoInt.
Export GoInt.

(** ** Time

    A [time.Time] obtained from [time.Now] carries a monotonic reading; it is
    modelled by that reading, in nanoseconds.  [time.Since t] is
    [time.Now().Sub(t)], which saturates at the ends of [Duration] (an
    int64 count of nanoseconds). *)

Module GoTime.

Definition Time := Z.
Definition Duration := Z.

Definition minDuration : Duration := - 2 ^ 63.
Definition maxDuration : Duration := 2 ^ 63 - 1.

Definition Second : Duration := 1000000000.

Definition Sub (t u : Time) : Duration :=
  let d := t - u in
  if d <? minDuration then minDuration
  else if maxDuration <? d then maxDuration
  else d.

End GoTime.
Export GoTime.

(** ** Data *)

(** [Backend]: the URL is kept by its [String()] form, which is all the
    program compares.  The [ReverseProxy] field is a closure over that same
    URL and is modelled by [ReverseProxy_ServeHTTP] below; [mux] has no
    sequential content. *)
Record Backend := mkBackend {
  URL : string;
  Alive : bool;
  FailureCount : Z;
  LastCheck : Time
}.

Definition set_Alive (v : bool) (b : Backend) : Backend :=
  mkBackend (URL b) v (FailureCount b) (LastCheck b).
Definition set_FailureCount (v : Z) (b : Backend) : Backend :=
  mkBackend (URL b) (Alive b) v (LastCheck b).
Definition set_LastCheck (v : Time) (b : Backend) : Backend :=
  mkBackend (URL b) (Alive b) (FailureCount b) v.

(** One constructor per [log.Printf] of the program, with its arguments. *)
Inductive LogEntry :=
| LogCircuitBreaker (url : string) (failures : Z)
| LogBackendDown (url : string)
| LogNon200 (url : string) (code : Z)
| LogBackUp (url : string) (downFor : Duration)
| LogRouting (url : string)
| LogNoHealthy
| LogErrorProxying (url : string)
| LogRetrying (url : string)
| LogNoHealthyRetry.

Record Request := mkRequest {
  Method : string;
  Path : string;
  Host : string
}.

(** Body of the [/status] answer before JSON encoding. *)
Record BackendStatus := mkBackendStatus {
  bs_url : string;
  bs_alive : bool;
  bs_failure_count : Z;
  bs_last_check : Time
}.

Record StatusResponse := mkStatusResponse {
  Status : string;
  TotalBackends : Z;
  HealthyBackends : Z;
  CurrentIndex : Z;
  Backends : list BackendStatus
}.

Inductive Body :=
| Text (s : string)
| Json (v : StatusResponse).

Record Response := mkResponse {
  StatusCode : Z;
  ContentType : option string;
  RespBody : Body
}.

Definition StatusOK : Z := 200.
Definition StatusServiceUnavailable : Z := 503.

(** Result of [client.Get]: an error, or a response with a status code. *)
Inductive ProbeResult :=
| ProbeError
| ProbeStatus (code : Z).

(** ** The outside world *)

Record Env := mkEnv {
  (** reading of the monotonic clock at the n-th observation *)
  clock : nat -> Time;
  (** [Transport.RoundTrip] towards a backend: [None] is a forwarding error *)
  roundTrip : nat -> string -> Request -> option Response;
  (** [client.Get(url + "/health")] *)
  probe : nat -> string -> ProbeResult
}.

(** [serverPool], the observation counter and the log written so far
    (most recent entry first). *)
Record World := mkWorld {
  backends : list Backend;
  current : Z;
  tick : nat;
  logs : list LogEntry
}.

Definition with_backends (bs : list Backend) (w : World) : World :=
  mkWorld bs (current w) (tick w) (logs w).
Definition with_current (c : Z) (w : World) : World :=
  mkWorld (backends w) c (tick w) (logs w).
Definition with_tick (n : nat) (w : World) : World :=
  mkWorld (backends w) (current w) n (logs w).
Definition with_logs (l : list LogEntry) (w : World) : World :=
  mkWorld (backends w) (current w) (tick w) l.

(** ** The monad: state, run-time panics, and fuel for the one recursion
    that is not structural (a failed retry re-enters the error handler). *)

Inductive Outcome (A : Type) :=
| Ret (a : A)
| Panic (msg : string)
| OutOfFuel.
Arguments Ret {A} a.
Arguments Panic {A} msg.
Arguments OutOfFuel {A}.

Definition M (A : Type) : Type := World -> Outcome A * World.

Definition ret {A} (a : A) : M A := fun w => (Ret a, w).

Definition bind {A B} (m : M A) (k : A -> M B) : M B :=
  fun w =>
    match m w with
    | (Ret a, w') => k a w'
    | (Panic msg, w') => (Panic msg, w')
    | (OutOfFuel, w') => (OutOfFuel, w')
    end.

Definition panic {A} (msg : string) : M A := fun w => (Panic msg, w).
Definition out_of_fuel {A} : M A := fun w => (OutOfFuel, w).

Declare Scope go_scope.
Delimit Scope go_scope with go.
Notation "x <- m ;; k" := (bind m (fun x => k))
  (at level 100, m at next level, right associativity) : go_scope.
Notation "m ;;; k" := (bind m (fun _ => k))
  (at level 100, right associativity) : go_scope.
Local Open Scope go_scope.

Definition gets {A} (f : World -> A) : M A := fun w => (Ret (f w), w).
Definition modify (f : World -> World) : M unit := fun w => (Ret tt, f w).

(** [for i := 0; i < n; i++ { body i }] over a length fixed at loop entry,
    as [for _, b := range s.backends] does. *)
Fixpoint for_range (n : nat) (i : nat) (body : nat -> M unit) : M unit :=
  match n with
  | O => ret tt
  | S n' => body i ;;; for_range n' (S i) body
  end.

Inductive PoolOp :=
| OpGetNextPeer
| OpSetAlive (q : nat) (alive : bool).

(** ** The program *)

Section Program.

Context (E : Env).

(** [time.Now()]: one observation of the clock. *)
Definition time_Now : M Time :=
  fun w => (Ret (clock E (tick w)), with_tick (S (tick w)) w).

(** [time.Since(t)] *)
Definition time_Since (t : Time) : M Duration :=
  now <- time_Now ;; ret (Sub now t).

Definition log_Printf (e : LogEntry) : M unit :=
  modify (fun w => with_logs (e :: logs w) w).

(** A [*Backend] of the pool is its position in [serverPool.backends]:
    the slice is filled before the server starts and never changes
    afterwards.  [load] and [store] read and write through the pointer. *)
Definition load (p : nat) : M Backend :=
  fun w =>
    match backends w !! p with
    | Some b => (Ret b, w)
    | None => (Panic "invalid memory address or nil pointer dereference", w)
    end.

Definition store (p : nat) (b : Backend) : M unit :=
  modify (fun w => with_backends (<[p := b]> (backends w)) w).

(** [len(s.backends)] *)
Definition len_backends : M Z :=
  gets (fun w => Z.of_nat (length (backends w))).

(** [s.backends[idx]] with its bounds check; the value is a pointer. *)
Definition index_backends (idx : Z) : M nat :=
  n <- len_backends ;;
  if (0 <=? idx) && (idx <? n) then ret (Z.to_nat idx)
  else panic "index out of range".

(** [func (b *Backend) SetAlive(alive bool)] *)
Definition SetAlive (p : nat) (alive : bool) : M unit :=
  b <- load p ;;
  let b := set_Alive alive b in
  let b :=
    if negb alive
    then set_FailureCount (int_add (FailureCount b) 1) b
    else set_FailureCount 0 b in
  now <- time_Now ;;
  store p (set_LastCheck now b).

(** [func (b *Backend) IsAlive() bool].  The clock is read only when the
    left operand of [&&] holds. *)
Definition IsAlive (p : nat) : M bool :=
  b <- load p ;;
  if 3 <? FailureCount b then
    d <- time_Since (LastCheck b) ;;
    if d <? 30 * Second then ret false else ret (Alive b)
  else ret (Alive b).

(** [func (s *ServerPool) NextIndex() int] *)
Definition NextIndex : M Z :=
  cur <- gets current ;;
  n <- len_backends ;;
  let d := uint64_of_int n in
  if d =? 0 then panic "integer divide by zero"
  else ret (int_of_uint64 (Z.rem (uint64_add cur 1) d)).

(** [func (s *ServerPool) MarkBackendStatus(backendUrl *url.URL, alive bool)]:
    the first record with that URL, if any. *)
Fixpoint MarkBackendStatus_loop (n : nat) (i : nat)
    (backendUrl : string) (alive : bool) : M unit :=
  match n with
  | O => ret tt
  | S n' =>
      b <- load i ;;
      if String.eqb (URL b) backendUrl then SetAlive i alive
      else MarkBackendStatus_loop n' (S i) backendUrl alive
  end.

Definition MarkBackendStatus (backendUrl : string) (alive : bool) : M unit :=
  n <- gets (fun w => length (backends w)) ;;
  MarkBackendStatus_loop n 0%nat backendUrl alive.

(** [func (s *ServerPool) GetNextPeer() *Backend]; [None] is [nil].
    The loop [for i := next; i < l; i++] is run with fuel; it needs
    [l - next] turns. *)
Fixpoint GetNextPeer_loop (fuel : nat) (i l : Z) : M (option nat) :=
  match fuel with
  | O => out_of_fuel
  | S fuel' =>
      if i <? l then
        n <- len_backends ;;
        if n =? 0 then panic "integer divide by zero" else
        let idx := Z.rem i n in
        p <- index_backends idx ;;
        alive <- IsAlive p ;;
        if alive then
          modify (with_current (uint64_of_int idx)) ;;;
          ret (Some p)
        else GetNextPeer_loop fuel' (int_add i 1) l
      else ret None
  end.

Definition GetNextPeer : M (option nat) :=
  next <- NextIndex ;;
  n <- len_backends ;;
  let l := int_add n next in
  GetNextPeer_loop (S (Z.to_nat (l - next))) next l.

(** [func (s *ServerPool) HealthCheck()], one turn of its loop for the
    backend behind pointer [p]. *)
Definition client_Get (url : string) : M ProbeResult :=
  fun w => (Ret (probe E (tick w) url), with_tick (S (tick w)) w).

(** The part of a turn after the circuit-breaker guard: probe and mark. *)
Definition HealthCheck_probe (p : nat) : M unit :=
  status <- IsAlive p ;;
  b <- load p ;;
  res <- client_Get (URL b ++ "/health") ;;
  match res with
  | ProbeError =>
      log_Printf (LogBackendDown (URL b)) ;;;
      SetAlive p false
  | ProbeStatus code =>
      if negb (code =? StatusOK) then
        log_Printf (LogNon200 (URL b) code) ;;;
        SetAlive p false
      else
        (if negb status then
           b <- load p ;;
           d <- time_Since (LastCheck b) ;;
           log_Printf (LogBackUp (URL b) d)
         else ret tt) ;;;
        SetAlive p true
  end.

Definition HealthCheck_body (p : nat) : M unit :=
  alive <- IsAlive p ;;
  b <- load p ;;
  skip <-
    (if negb alive && (3 <? FailureCount b) then
       d <- time_Since (LastCheck b) ;; ret (d <? 30 * Second)
     else ret false) ;;
  if skip then
    log_Printf (LogCircuitBreaker (URL b) (FailureCount b))
  else
    HealthCheck_probe p.

Definition HealthCheck : M unit :=
  n <- gets (fun w => length (backends w)) ;;
  for_range n 0%nat HealthCheck_body.

(** [http.Error(w, msg, code)] *)
Definition http_Error (msg : string) (code : Z) : Response :=
  mkResponse code (Some "text/plain; charset=utf-8")
    (Text (msg ++ String (Ascii.ascii_of_nat 10) "")).

Definition transport_RoundTrip (backendUrl : string) (r : Request)
    : M (option Response) :=
  fun w => (Ret (roundTrip E (tick w) backendUrl r), with_tick (S (tick w)) w).

(** [proxy.ErrorHandler], the closure built in [main] for the backend
    [backendUrl].  [serve u] stands for [peer.ReverseProxy.ServeHTTP] of
    the peer whose URL is [u]. *)
Definition ErrorHandler (serve : string -> Request -> M Response)
    (backendUrl : string) (r : Request) : M Response :=
  log_Printf (LogErrorProxying backendUrl) ;;;
  MarkBackendStatus backendUrl false ;;;
  peer <- GetNextPeer ;;
  match peer with
  | Some p =>
      pb <- load p ;;
      if negb (String.eqb (URL pb) backendUrl) then
        log_Printf (LogRetrying (URL pb)) ;;;
        serve (URL pb) r
      else
        log_Printf LogNoHealthyRetry ;;;
        ret (http_Error "Service unavailable" StatusServiceUnavailable)
  | None =>
      log_Printf LogNoHealthyRetry ;;;
      ret (http_Error "Service unavailable" StatusServiceUnavailable)
  end.

(** [ReverseProxy.ServeHTTP] of the proxy wired to [backendUrl]: forward,
    stream the answer back, or run the proxy's [ErrorHandler].  The retry in
    the handler calls the peer's proxy, which has a handler of its own, so
    the recursion takes fuel.  The [Director]'s rewriting of the outbound
    request (scheme, host, forwarding headers) is left to the [roundTrip]
    oracle, which sees the target URL and the request. *)
Fixpoint ReverseProxy_ServeHTTP (fuel : nat) (backendUrl : string)
    (r : Request) : M Response :=
  match fuel with
  | O => out_of_fuel
  | S fuel' =>
      res <- transport_RoundTrip backendUrl r ;;
      match res with
      | Some resp => ret resp
      | None => ErrorHandler (ReverseProxy_ServeHTTP fuel') backendUrl r
      end
  end.

(** [func loadBalancer(w http.ResponseWriter, r *http.Request)] *)
Definition loadBalancer (fuel : nat) (r : Request) : M Response :=
  peer <- GetNextPeer ;;
  match peer with
  | Some p =>
      pb <- load p ;;
      log_Printf (LogRouting (URL pb)) ;;;
      ReverseProxy_ServeHTTP fuel (URL pb) r
  | None =>
      log_Printf LogNoHealthy ;;;
      ret (http_Error "Service unavailable" StatusServiceUnavailable)
  end.

(** [func countHealthyBackends() int] *)
Fixpoint countHealthyBackends_loop (n : nat) (i : nat) (count : Z) : M Z :=
  match n with
  | O => ret count
  | S n' =>
      alive <- IsAlive i ;;
      countHealthyBackends_loop n' (S i)
        (if alive then int_add count 1 else count)
  end.

Definition countHealthyBackends : M Z :=
  n <- gets (fun w => length (backends w)) ;;
  countHealthyBackends_loop n 0%nat 0.

(** The verb [%d] of [fmt]. *)
Definition fmt_d (z : Z) : string := NilZero.string_of_int (Z.to_int z).

(** [func healthHandler(w http.ResponseWriter, r *http.Request)] *)
Definition healthHandler (r : Request) : M Response :=
  healthyCount <- countHealthyBackends ;;
  if healthyCount =? 0 then
    ret (mkResponse StatusServiceUnavailable None
           (Text "UNHEALTHY: No healthy backends available"))
  else
    n <- len_backends ;;
    ret (mkResponse StatusOK None
           (Text ("HEALTHY: " ++ fmt_d healthyCount ++ "/" ++ fmt_d n
                  ++ " backends available"))).

(** [func statusHandler(w http.ResponseWriter, r *http.Request)].
    [LastCheck.Format(time.RFC3339)] and the JSON encoding are left
    symbolic: the body is the [StatusResponse] value that gets encoded. *)
Fixpoint statusHandler_loop (n : nat) (i : nat) (acc : list BackendStatus)
    : M (list BackendStatus) :=
  match n with
  | O => ret acc
  | S n' =>
      b <- load i ;;
      let backendStatus :=
        mkBackendStatus (URL b) (Alive b) (FailureCount b) (LastCheck b) in
      cooling <-
        (if 3 <? FailureCount b then
           d <- time_Since (LastCheck b) ;; ret (d <? 30 * Second)
         else ret false) ;;
      let backendStatus :=
        if cooling
        then mkBackendStatus (bs_url backendStatus) false
               (bs_failure_count backendStatus) (bs_last_check backendStatus)
        else backendStatus in
      statusHandler_loop n' (S i) (acc ++ [backendStatus])
  end.

Definition statusHandler (r : Request) : M Response :=
  total <- len_backends ;;
  healthy <- countHealthyBackends ;;
  cur <- gets current ;;
  n <- gets (fun w => length (backends w)) ;;
  bss <- statusHandler_loop n 0%nat [] ;;
  let response :=
    mkStatusResponse "operational" total healthy (int_of_uint64 cur) bss in
  if HealthyBackends response =? 0 then
    ret (mkResponse StatusServiceUnavailable (Some "application/json")
           (Json (mkStatusResponse "degraded" (TotalBackends response)
                    (HealthyBackends response) (CurrentIndex response)
                    (Backends response))))
  else
    ret (mkResponse StatusOK (Some "application/json") (Json response)).

(** The dispatch of the [http.ServeMux] built in [main]: three patterns,
    none of which names a method.  ["/health"] and ["/status"] match their
    path exactly and ["/"] matches every other path.  This is what the mux
    does with a request that it hands to a handler, which is the case for
    every request whose path is clean; a path that is not clean (["//x"],
    ["/a/../b"]) is answered by the mux itself with a redirect to the
    clean path (301), and the request URI ["*"] with 400, and neither
    runs a handler.  Statements about the answer of the mux are
    therefore made for the exact paths ["/health"] and ["/status"]. *)
Definition mux_ServeHTTP (fuel : nat) (r : Request) : M Response :=
  if String.eqb (Path r) "/health" then healthHandler r
  else if String.eqb (Path r) "/status" then statusHandler r
  else loadBalancer fuel r.

(** [n] selections in a row, as [n] consecutive requests make them. *)
Fixpoint selections (n : nat) : M (list (option nat)) :=
  match n with
  | O => ret []
  | S n' => p <- GetNextPeer ;; ps <- selections n' ;; ret (p :: ps)
  end.

(** A schedule of pool operations, as requests and the health monitor issue
    them over time, and its run; the run collects what the selections
    returned. *)
Definition do_op (op : PoolOp) : M (list (option nat)) :=
  match op with
  | OpGetNextPeer => r <- GetNextPeer ;; ret [r]
  | OpSetAlive q alive => SetAlive q alive ;;; ret []
  end.

Fixpoint run_ops (ops : list PoolOp) : M (list (option nat)) :=
  match ops with
  | [] => ret []
  | op :: ops' => rs <- do_op op ;; rs' <- run_ops ops' ;; ret (rs ++ rs')
  end.

End Program.

(** ** Vocabulary of the specification *)

(** The cooldown window of the circuit breaker, and [isEligible()] as the
    specification words it: false in the window, the [alive] flag
    otherwise. *)
Definition in_cooldown (b : Backend) (now : Time) : bool :=
  (3 <? FailureCount b) && (now - LastCheck b <? 30 * Second).

Definition isEligible (b : Backend) (now : Time) : bool :=
  if in_cooldown b now then false else Alive b.



(** The pool invariant of the data model: a non-empty slice (that fits a Go
    slice of pointers) and a cursor that is a valid index. *)
Definition pool_ok (w : World) : Prop :=
  0 < Z.of_nat (length (backends w)) < 2 ^ 60 /\
  0 <= current w < Z.of_nat (length (backends w)).

(** An eligibility check of record [b] that ran between worlds [w] and [w']
    and answered [e]: it looked at the clock only if the failure counter
    was above the threshold. *)
Definition checked (E : Env) (w w' : World) (b : Backend) (e : bool) : Prop :=
  if 3 <? FailureCount b
  then exists n, (tick w <= n < tick w')%nat /\ isEligible b (clock E n) = e
  else Alive b = e.

(** The pool and the log are untouched; only observations were made. *)
Definition observes_only (w w' : World) : Prop :=
  backends w' = backends w /\ current w' = current w /\
  logs w' = logs w /\ (tick w <= tick w')%nat.

Section Vocabulary.

Context (E : Env).

(** What one scan of [GetNextPeer]'s loop establishes, from offset [j] of
    the rotation on. *)
Definition scan_result (w w' : World) (next j : Z) (bound : nat)
    (r : option nat) : Prop :=
  let N := Z.of_nat (length (backends w)) in
  match r with
  | Some p =>
      exists k b,
        j <= k < N /\ Z.of_nat p = (next + k) mod N /\
        current w' = Z.of_nat p /\
        backends w !! p = Some b /\ checked E w w' b true /\
        (tick w' <= tick w + Z.to_nat (k - j + 1))%nat /\
        forall j', j <= j' < k ->
          exists b', backends w !! Z.to_nat ((next + j') mod N) = Some b' /\
                     checked E w w' b' false
  | None =>
      current w' = current w /\ (tick w' <= tick w + bound)%nat /\
      forall j', j <= j' < N ->
        exists b', backends w !! Z.to_nat ((next + j') mod N) = Some b' /\
                   checked E w w' b' false
  end.

(** Every backend is eligible at every observation from [w] on. *)
Definition all_eligible_from (w : World) : Prop :=
  forall n b, (tick w <= n)%nat -> b ∈ backends w ->
              isEligible b (clock E n) = true.

(** Index selected by the [k]-th call (counting from 0) when nothing is
    skipped. *)
Definition rotation (w : World) (k : nat) : nat :=
  Z.to_nat ((current w + 1 + Z.of_nat k) mod Z.of_nat (length (backends w))).

(** What any turn of the sweep preserves: the shape of the pool, the cursor
    and every record but the one it looks at. *)
Definition touches_only (p : nat) (w w' : World) : Prop :=
  length (backends w') = length (backends w) /\
  current w' = current w /\
  forall q, q <> p -> backends w' !! q = backends w !! q.

(** All clock readings taken between [w] and [w'] fall inside the cooldown
    window of record [b]. *)
Definition within_window (w w' : World) (b : Backend) : Prop :=
  forall n, (tick w <= n < tick w')%nat ->
            clock E n - LastCheck b < 30 * Second.

(** Number of checks that answered true. *)
Fixpoint count_true (es : list bool) : Z :=
  match es with
  | [] => 0
  | e :: es' => (if e then 1 else 0) + count_true es'
  end.

(** No backend is eligible at any observation from [w] on. *)
Definition none_eligible_from (w : World) : Prop :=
  forall n b, (tick w <= n)%nat -> b ∈ backends w ->
              isEligible b (clock E n) = false.

Definition with_Method (m : string) (r : Request) : Request :=
  mkRequest m (Path r) (Host r).

(** The schedule never runs [SetAlive(true)] on the record behind [p], and
    only marks records of the pool. *)
Definition no_markSuccess (p : nat) (len : nat) (op : PoolOp) : Prop :=
  match op with
  | OpGetNextPeer => True
  | OpSetAlive q alive => (q < len)%nat /\ (q = p -> alive = false)
  end.

(** The record that [MarkBackendStatus] reaches: the first with that URL. *)
Definition first_with_url (url : string) (bs : list Backend)
    : option (nat * Backend) :=
  list_find (fun b => URL b = url) bs.

Definition unavailable : Response :=
  http_Error "Service unavailable" StatusServiceUnavailable.

(** The world in which the error handler of [url] starts its work: the
    failed round trip has been observed and the error logged. *)
Definition after_error (url : string) (w : World) : World :=
  with_logs (LogErrorProxying url :: logs w) (with_tick (S (tick w)) w).

(** Number of records whose [Alive] flag is set. *)
Fixpoint alive_count (bs : list Backend) : nat :=
  match bs with
  | [] => 0
  | b :: bs' => (if Alive b then 1 else 0) + alive_count bs'
  end.

Definition distinct_urls (w : World) : Prop := NoDup (URL <$> backends w).

(** Number of retries ([Retrying request with ...]) recorded in a log. *)
Fixpoint retries (l : list LogEntry) : nat :=
  match l with
  | [] => 0
  | LogRetrying _ :: l' => S (retries l')
  | _ :: l' => retries l'
  end.

End Vocabulary.

(** ** A sample deployment

    The three default backends of [main], a clock that advances by one
    millisecond per observation, an upstream in which only [app1] answers,
    and probes that all succeed. *)

Module Sample.

Definition app1 : string := "http://app1:8080".
Definition app2 : string := "http://app2:8080".
Definition app3 : string := "http://app3:8080".

Definition E : Env :=
  mkEnv (fun n => Z.of_nat n * 1000000)
        (fun _ url _ =>
           if String.eqb url app1
           then Some (mkResponse StatusOK None (Text "ok"))
           else None)
        (fun _ _ => ProbeStatus StatusOK).

(** A record as [main] creates it, one whose breaker has tripped while its
    flag is still set, and one that was marked down once. *)
Definition fresh (url : string) : Backend := mkBackend url true 0 0.
Definition tripped (url : string) : Backend := mkBackend url true 4 0.
Definition down (url : string) : Backend := mkBackend url false 1 0.

Definition w0 : World :=
  mkWorld [fresh app1; fresh app2; fresh app3] 0 0%nat [].
Definition w_tripped : World :=
  mkWorld [fresh app1; tripped app2; fresh app3] 0 0%nat [].
Definition w_down : World :=
  mkWorld [down app1; down app2; down app3] 0 0%nat [].

Definition req : Request := mkRequest "POST" "/notes" "localhost".
Definition health_req : Request := mkRequest "DELETE" "/health" "localhost".

Definition schedule : list PoolOp :=
  [OpGetNextPeer; OpSetAlive 1 false; OpSetAlive 0 true; OpGetNextPeer;
   OpGetNextPeer].

(** A total outage of the upstream, and a configuration that lists two
    backends twice ([BACKENDS=app1,app2,app1,app2]). *)
Definition E_dead : Env :=
  mkEnv (fun n => Z.of_nat n * 1000000)
        (fun _ _ _ => None)
        (fun _ _ => ProbeError).

Definition w_twins : World :=
  mkWorld [fresh app1; fresh app2; fresh app1; fresh app2] 0 0%nat [].

(** The states through which a request cycles on [w_twins] once the first
    copy of each URL has been marked down: the second copies are never
    marked, and the cursor alternates between them. *)
Definition twins_looping (w : World) (u : string) : Prop :=
  exists x1 y1,
    backends w = [x1; y1; fresh app1; fresh app2] /\
    URL x1 = app1 /\ URL y1 = app2 /\
    Alive x1 = false /\ Alive y1 = false /\
    ((u = app1 /\ current w = 2) \/ (u = app2 /\ current w = 3)).

(** [w_twins] after one request has failed over twice. *)
Definition w_twins_cycling : World :=
  mkWorld [mkBackend app1 false 1 3000000; mkBackend app2 false 1 1000000;
           fresh app1; fresh app2]
          3 4%nat
          [LogRetrying app2; LogErrorProxying app1; LogRetrying app1;
           LogErrorProxying app2; LogRouting app2].

End Sample.

(** ** Startup: the part of [main] that builds the pool

    [strings.TrimSpace] and [url.Parse] belong to the Go library; the
    program is taken over any such pair of functions ([url_Parse] gives the
    [String()] form of the parsed URL, or [None] for an error). *)

(** [strings.SplitSeq(s, sep)] for a one-byte separator: the pieces between
    the separators, in order; a string without separator is its own single
    piece. *)
Fixpoint strings_SplitSeq (sep : Ascii.ascii) (s : string) : list string :=
  match s with
  | EmptyString => [EmptyString]
  | String c s' =>
      if Ascii.eqb c sep then EmptyString :: strings_SplitSeq sep s'
      else
        match strings_SplitSeq sep s' with
        | piece :: pieces => String c piece :: pieces
        | [] => [String c EmptyString]
        end
  end.


Definition comma : Ascii.ascii := Ascii.ascii_of_nat 44.



Section Startup.

Context (E : Env).
Context (TrimSpace : string -> string).
Context (url_Parse : string -> option string).

(** The body of the loop of [parseBackendsFromEnv] on one piece: what it
    appends, if anything. *)
Definition with_scheme (backend : string) : string :=
  if negb (String.prefix "http://" backend)
     && negb (String.prefix "https://" backend)
  then String.append "http://" backend
  else backend.

(** [func parseBackendsFromEnv(envString string) []string] *)
Fixpoint parseBackendsFromEnv_loop (parts : list string)
    (backends : list string) : list string :=
  match parts with
  | [] => backends
  | part :: rest =>
      let backend := TrimSpace part in
      if negb (String.eqb backend "") then
        parseBackendsFromEnv_loop rest (backends ++ [with_scheme backend])
      else parseBackendsFromEnv_loop rest backends
  end.

Definition parseBackendsFromEnv (envString : string) : list string :=
  parseBackendsFromEnv_loop (strings_SplitSeq comma envString) [].

(** [func (s *ServerPool) AddBackend(backend *Backend)] *)
Definition AddBackend (backend : Backend) : M unit :=
  modify (fun w => with_backends (backends w ++ [backend]) w).

Definition default_backends : list string :=
  ["http://app1:8080"; "http://app2:8080"; "http://app3:8080"].

(** The list that [main] configures from the value of [BACKENDS]. *)
Definition configured_backends (envBackends : string) : list string :=
  if negb (String.eqb envBackends "") then parseBackendsFromEnv envBackends
  else default_backends.

(** [main], from its first line to the end of the loop that wires the
    backends.  The result [Some msg] is [log.Fatal]: the process exits.
    The lines that startup writes to the log are left out, here and in
    [parseBackendsFromEnv]. *)
Fixpoint main_wire (backends : list string) : M (option string) :=
  match backends with
  | [] => ret None
  | b :: rest =>
      match url_Parse b with
      | None => ret (Some (String.append "Failed to parse backend URL " b))
      | Some backendUrl =>
          now <- time_Now E ;;
          AddBackend (mkBackend backendUrl true 0 now) ;;;
          main_wire rest
      end
  end.

Definition main_init (envBackends : string) : M (option string) :=
  let backends := configured_backends envBackends in
  if (Z.of_nat (length backends) =? 0)
  then ret (Some "No backends configured. Set BACKENDS environment variable with comma-separated URLs")
  else main_wire backends.

(** A record as [main] wires it for the configured string [c]. *)
Definition wired (c : string) (b : Backend) : Prop :=
  url_Parse c = Some (URL b) /\ Alive b = true /\ FailureCount b = 0.

End Startup.

(** ** Invariants *)

(** What [SetAlive] keeps true of a record: a set flag comes with a zero
    failure counter. *)
Definition record_ok (b : Backend) : Prop :=
  Alive b = true -> FailureCount b = 0.

Definition records_ok (w : World) : Prop := Forall record_ok (backends w).

(** A computation keeps [P]: whatever its outcome, [P] holds of the world it
    leaves if it held of the world it started in. *)
Definition keeps {A} (P : World -> Prop) (m : M A) : Prop :=
  forall w o w', m w = (o, w') -> P w -> P w'.

(** Properties of a world that only depend on the records, or only on the
    records and the cursor. *)
Definition on_records (P : World -> Prop) : Prop :=
  forall w w', backends w' = backends w -> P w -> P w'.

Definition on_pool (P : World -> Prop) : Prop :=
  forall w w', backends w' = backends w -> current w' = current w ->
               P w -> P w'.

(** [P] survives every write that [SetAlive] can make. *)
Definition mark_closed (P : World -> Prop) : Prop :=
  forall w p b alive now,
    backends w !! p = Some b -> P w ->
    P (with_backends
         (<[p := mkBackend (URL b) alive
                   (if alive then 0 else int_add (FailureCount b) 1) now]>
            (backends w)) w).

(** An entry of the [backends] array of [/status] reports record [b]: its
    URL, counter and stamp, and for [alive] the answer of an eligibility
    check made between [w] and [w']. *)
Definition reports (E : Env) (w w' : World) (b : Backend)
    (s : BackendStatus) : Prop :=
  bs_url s = URL b /\ bs_failure_count s = FailureCount b /\
  bs_last_check s = LastCheck b /\ checked E w w' b (bs_alive s).

(** The entry that shows a record as it is. *)
Definition snapshot (b : Backend) : BackendStatus :=
  mkBackendStatus (URL b) (Alive b) (FailureCount b) (LastCheck b).

(** A probe counts as a success when it got an answer with code 200. *)
Definition is200 (res : ProbeResult) : bool :=
  match res with
  | ProbeStatus code => code =? StatusOK
  | ProbeError => false
  end.


(** The answer of a failover chain: either a response that the upstream
    gave, or the 503 of the balancer with every backend marked down. *)
Definition answered (E : Env) (r : Request) (resp : Response)
    (w' : World) : Prop :=
  (exists n u, roundTrip E n u r = Some resp) \/
  (resp = unavailable /\ alive_count (backends w') = 0%nat).

(** A record the program would write by [SetAlive]. *)
Definition marked (b : Backend) (alive : bool) (now : Time) : Backend :=
  mkBackend (URL b) alive
    (if alive then 0 else int_add (FailureCount b) 1) now.

(** The flag of the record at index [i]; no record, no flag. *)
Definition alive_at (bs : list Backend) (i : nat) : bool :=
  match bs !! i with
  | Some b => Alive b
  | None => false
  end.

(** [n] consecutive slots of the rotation over [N] backends, from the
    absolute position [s] on. *)
Definition window (N s : Z) (n : nat) : list nat :=
  (fun j => Z.to_nat ((s + Z.of_nat j) mod N)) <$> seq 0 n.

(** The indices of the backends whose flag is set, in the order in which
    the selector meets them: from the slot after the cursor, once around. *)
Definition alive_order (w : World) : list nat :=
  filter (fun i => alive_at (backends w) i = true)
         (rotation w <$> seq 0 (length (backends w))).

(** ** A sample startup *)

Module SampleStartup.

(** [strings.TrimSpace] on ASCII text: the six ASCII space characters are
    cut from both ends. *)
Definition asciiSpace (c : Ascii.ascii) : bool :=
  let n := Ascii.nat_of_ascii c in
  (Nat.eqb n 9 || Nat.eqb n 10 || Nat.eqb n 11 || Nat.eqb n 12
   || Nat.eqb n 13 || Nat.eqb n 32)%bool.

Fixpoint trim_left (s : string) : string :=
  match s with
  | String c s' => if asciiSpace c then trim_left s' else s
  | EmptyString => EmptyString
  end.

Fixpoint trim_right (s : string) : string :=
  match s with
  | String c s' =>
      match trim_right s' with
      | EmptyString => if asciiSpace c then EmptyString else String c EmptyString
      | t => String c t
      end
  | EmptyString => EmptyString
  end.

Definition TrimSpace (s : string) : string := trim_right (trim_left s).

(** A stand-in for [url.Parse]: it refuses a string with a space in it and
    keeps every other string as it is. *)
Fixpoint has_space (s : string) : bool :=
  match s with
  | String c s' => (Ascii.eqb c (Ascii.ascii_of_nat 32) || has_space s')%bool
  | EmptyString => false
  end.

Definition url_Parse (s : string) : option string :=
  if has_space s then None else Some s.

Definition env_BACKENDS : string := " app1:8080, https://app2:8443 ,,app3".

Definition w_zero : World := mkWorld [] 0 0%nat [].

End SampleStartup.

(** ** More sample states

    The sample pool with [app2] marked down once; with the cursor on the
    last backend; and with [app1] behind a tripped breaker, seen a minute
    after its last stamp. *)

Module SampleRuns.

Definition w_mixed : World :=
  mkWorld [Sample.fresh Sample.app1; Sample.down Sample.app2;
           Sample.fresh Sample.app3] 0 0%nat [].

Definition w_last : World :=
  mkWorld [Sample.fresh Sample.app1; Sample.fresh Sample.app2;
           Sample.fresh Sample.app3] 2 0%nat [].

Definition broken (url : string) : Backend := mkBackend url false 4 0.

Definition w_broken : World :=
  mkWorld [broken Sample.app1; Sample.fresh Sample.app2;
           Sample.fresh Sample.app3] 0 0%nat [].

Definition E_later : Env :=
  mkEnv (fun n => 60 * Second + Z.of_nat n * 1000000)
        (roundTrip Sample.E) (probe Sample.E).


End SampleRuns.

(** ** Integers and durations *)

Lemma int_wrap_id (z : Z) : in_int z -> int_wrap z = z.
Proof.
  unfold in_int, int_min, int_max, int_wrap. intros Hz.
  rewrite Z.mod_small by lia. lia.
Qed.

Lemma uint64_wrap_id (z : Z) : 0 <= z < 2 ^ 64 -> uint64_wrap z = z.
Proof. unfold uint64_wrap. intros Hz. now rewrite Z.mod_small. Qed.

(** Saturation of [Sub] never changes the comparison with 30 s. *)
Lemma Sub_ltb_30s (t u : Time) :
  (Sub t u <? 30 * Second) = (t - u <? 30 * Second).
Proof.
  unfold Sub, minDuration, maxDuration, Second. cbv zeta.
  destruct (Z.ltb_spec (t - u) (- 2 ^ 63));
    [|destruct (Z.ltb_spec (2 ^ 63 - 1) (t - u))];
    match goal with
    | |- (?a <? ?b) = (?c <? ?d) =>
        destruct (Z.ltb_spec a b); destruct (Z.ltb_spec c d)
    end; try reflexivity; lia.
Qed.

(** ** Running computations *)

Lemma bind_run {A B} (m : M A) (k : A -> M B) (w w' : World) (a : A) :
  m w = (Ret a, w') -> bind m k w = k a w'.
Proof. unfold bind. now intros ->. Qed.

Lemma bind_ret {A B} (a : A) (k : A -> M B) (w : World) :
  bind (ret a) k w = k a w.
Proof. reflexivity. Qed.

Lemma bind_gets {A B} (f : World -> A) (k : A -> M B) (w : World) :
  bind (gets f) k w = k (f w) w.
Proof. reflexivity. Qed.

Lemma bind_modify {B} (f : World -> World) (k : unit -> M B) (w : World) :
  bind (modify f) k w = k tt (f w).
Proof. reflexivity. Qed.

Lemma bind_assoc {A B C} (m : M A) (f : A -> M B) (g : B -> M C) (w : World) :
  bind (bind m f) g w = bind m (fun a => bind (f a) g) w.
Proof. unfold bind. destruct (m w) as [[a| |] w']; reflexivity. Qed.

(** ** Backend records *)

Section Records.

Context (E : Env).

Lemma load_Some (w : World) (p : nat) (b : Backend) :
  backends w !! p = Some b -> load p w = (Ret b, w).
Proof. unfold load. now intros ->. Qed.

Lemma IsAlive_run (w : World) (p : nat) (b : Backend) :
  backends w !! p = Some b ->
  IsAlive E p w =
    (Ret (isEligible b (clock E (tick w))),
     if 3 <? FailureCount b then with_tick (S (tick w)) w else w).
Proof.
  intros Hb. unfold IsAlive, bind. rewrite (load_Some _ _ _ Hb).
  unfold isEligible, in_cooldown.
  destruct (3 <? FailureCount b); simpl; [|reflexivity].
  unfold time_Since, bind, time_Now, ret. rewrite Sub_ltb_30s.
  now destruct (_ <? _).
Qed.

Lemma SetAlive_run (w : World) (p : nat) (b : Backend) (alive : bool) :
  backends w !! p = Some b ->
  SetAlive E p alive w =
    (Ret tt,
     with_backends
       (<[p := mkBackend (URL b) alive
                 (if alive then 0 else int_add (FailureCount b) 1)
                 (clock E (tick w))]> (backends w))
       (with_tick (S (tick w)) w)).
Proof.
  intros Hb. unfold SetAlive, bind. rewrite (load_Some _ _ _ Hb).
  unfold time_Now, store, modify. now destruct alive.
Qed.

(** C4. [IsAlive] answers false when the failure counter is above 3 and
    less than 30 seconds have passed since [LastCheck]; in every other case
    it answers the [Alive] flag.  The flag plays no part inside the window.
    The call changes neither the pool, the cursor nor the log. *)
Theorem IsAlive_cooldown_or_flag (w : World) (p : nat) (b : Backend) :
  backends w !! p = Some b ->
  exists r w',
    IsAlive E p w = (Ret r, w') /\ observes_only w w' /\
    let now := clock E (tick w) in
    (3 < FailureCount b /\ now - LastCheck b < 30 * Second -> r = false) /\
    (~ (3 < FailureCount b /\ now - LastCheck b < 30 * Second) ->
     r = Alive b) /\
    r = isEligible b now.
Proof.
  intros Hb. rewrite (IsAlive_run _ _ _ Hb).
  eexists _, _. split; [reflexivity|]. split.
  { unfold observes_only. destruct (3 <? FailureCount b); simpl; auto with lia. }
  unfold isEligible, in_cooldown. cbv zeta.
  destruct (Z.ltb_spec 3 (FailureCount b));
    destruct (Z.ltb_spec (clock E (tick w) - LastCheck b) (30 * Second));
    simpl; repeat split; intros; try reflexivity; tauto || lia.
Qed.

End Records.

(** ** Selection *)

Section Selection.

Context (E : Env).

Lemma isEligible_below_threshold (b : Backend) (t : Time) :
  FailureCount b <= 3 -> isEligible b t = Alive b.
Proof.
  intros H. unfold isEligible, in_cooldown.
  destruct (Z.ltb_spec 3 (FailureCount b)); [lia|reflexivity].
Qed.

Lemma IsAlive_checked (w : World) (p : nat) (b : Backend) :
  backends w !! p = Some b ->
  exists w',
    IsAlive E p w = (Ret (isEligible b (clock E (tick w))), w') /\
    observes_only w w' /\ (tick w' <= S (tick w))%nat /\
    checked E w w' b (isEligible b (clock E (tick w))).
Proof.
  intros Hb. rewrite (IsAlive_run _ _ _ _ Hb). eexists. split; [reflexivity|].
  unfold observes_only, checked.
  destruct (Z.ltb_spec 3 (FailureCount b)); simpl.
  - repeat split; try lia. exists (tick w). split; [lia|reflexivity].
  - repeat split; try lia. symmetry. now apply isEligible_below_threshold.
Qed.

Lemma checked_widen (w1 w1' w2 w2' : World) (b : Backend) (e : bool) :
  (tick w1' <= tick w1)%nat -> (tick w2 <= tick w2')%nat ->
  checked E w1 w2 b e -> checked E w1' w2' b e.
Proof.
  unfold checked. intros H1 H2. destruct (3 <? FailureCount b); [|auto].
  intros (n & Hn & He). exists n. split; [lia|exact He].
Qed.

Lemma NextIndex_run (w : World) :
  pool_ok w ->
  NextIndex w =
    (Ret ((current w + 1) mod Z.of_nat (length (backends w))), w).
Proof.
  intros [HN Hc]. unfold NextIndex, len_backends.
  rewrite !bind_gets. unfold uint64_of_int, uint64_add.
  rewrite !uint64_wrap_id by lia.
  destruct (Z.eqb_spec (Z.of_nat (length (backends w))) 0); [lia|].
  unfold ret. f_equal. f_equal.
  rewrite Z.rem_mod_nonneg by lia.
  unfold int_of_uint64. apply int_wrap_id.
  pose proof (Z.mod_pos_bound (current w + 1)
                (Z.of_nat (length (backends w))) ltac:(lia)).
  unfold in_int, int_min, int_max. lia.
Qed.

Lemma lookup_index (bs : list Backend) (idx : Z) :
  0 <= idx < Z.of_nat (length bs) ->
  exists b, bs !! Z.to_nat idx = Some b.
Proof.
  intros H. destruct (bs !! Z.to_nat idx) eqn:Hl; [eauto|].
  apply lookup_ge_None in Hl. lia.
Qed.

Lemma GetNextPeer_loop_spec (m : nat) :
  forall (fuel : nat) (j next : Z) (w : World),
    let N := Z.of_nat (length (backends w)) in
    0 < N < 2 ^ 60 -> 0 <= next < N -> 0 <= j -> j + Z.of_nat m = N ->
    (m < fuel)%nat ->
    exists r w',
      GetNextPeer_loop E fuel (next + j) (N + next) w = (Ret r, w') /\
      backends w' = backends w /\ logs w' = logs w /\
      (tick w <= tick w')%nat /\
      scan_result E w w' next j m r.
Proof.
  induction m as [|m IH]; intros fuel j next w N HN Hnext Hj Hm Hfuel;
    (destruct fuel as [|fuel]; [lia|]); simpl.
  - destruct (Z.ltb_spec (next + j) (N + next)); [lia|].
    exists None, w. unfold ret, scan_result. fold N. repeat split; try lia.
  - destruct (Z.ltb_spec (next + j) (N + next)); [|lia].
    unfold len_backends at 1. rewrite bind_gets. fold N.
    destruct (Z.eqb_spec N 0); [lia|].
    rewrite Z.rem_mod_nonneg by lia.
    pose proof (Z.mod_pos_bound (next + j) N ltac:(lia)) as Hidx.
    unfold index_backends, len_backends. rewrite bind_assoc, bind_gets. fold N.
    destruct (Z.leb_spec 0 ((next + j) mod N)); [|lia].
    destruct (Z.ltb_spec ((next + j) mod N) N); [|lia]. simpl.
    rewrite bind_ret.
    destruct (lookup_index (backends w) ((next + j) mod N) Hidx) as [b Hb].
    destruct (IsAlive_checked w _ b Hb) as (w1 & Hrun & Hobs & Htick & Hchk).
    rewrite (bind_run _ _ _ _ _ Hrun). destruct Hobs as (Hbs & Hcur & Hlogs & Hle).
    destruct (isEligible b (clock E (tick w))) eqn:He.
    + rewrite bind_modify. unfold ret. eexists _, _. split; [reflexivity|].
      assert (Hu : uint64_of_int ((next + j) mod N) = (next + j) mod N).
      { unfold uint64_of_int. apply uint64_wrap_id. lia. }
      simpl. repeat split; try assumption.
      exists j, b. fold N. rewrite Hu.
      split; [lia|]. split; [lia|]. split; [lia|]. split; [exact Hb|].
      split; [eapply checked_widen; [| |exact Hchk]; simpl; lia|].
      split; [|intros; lia].
      replace (j - j + 1) with 1 by lia. change (Z.to_nat 1) with 1%nat. lia.
    + assert (Hadd : int_add (next + j) 1 = next + (j + 1)).
      { unfold int_add. rewrite int_wrap_id; [lia|].
        unfold in_int, int_min, int_max. lia. }
      rewrite Hadd.
      specialize (IH fuel (j + 1) next w1). cbv zeta in IH.
      rewrite Hbs in IH. fold N in IH.
      destruct IH as (r & w' & Hloop & Hbs' & Hlogs' & Hle' & Hres);
        [lia..|].
      exists r, w'. split; [exact Hloop|].
      repeat split; try congruence; try lia.
      unfold scan_result in *. rewrite Hbs in Hres. fold N in Hres. fold N.
      destruct r as [p|].
      * destruct Hres as (k & b' & Hk & Hp & Hcur' & Hb' & Hchk' & Htk & Hprev).
        exists k, b'. repeat split; try lia; try assumption.
        -- eapply checked_widen; [| |exact Hchk']; lia.
        -- intros j' Hj'. destruct (Z.eq_dec j' j) as [->|Hne].
           ++ exists b. split; [exact Hb|].
              eapply checked_widen; [| |exact Hchk]; lia.
           ++ destruct (Hprev j' ltac:(lia)) as (b'' & Hb'' & Hchk'').
              exists b''. split; [exact Hb''|].
              eapply checked_widen; [| |exact Hchk'']; lia.
      * destruct Hres as (Hcur' & Htk & Hall).
        repeat split; try congruence; try lia.
        intros j' Hj'. destruct (Z.eq_dec j' j) as [->|Hne].
        -- exists b. split; [exact Hb|].
           eapply checked_widen; [| |exact Hchk]; lia.
        -- destruct (Hall j' ltac:(lia)) as (b'' & Hb'' & Hchk'').
           exists b''. split; [exact Hb''|].
           eapply checked_widen; [| |exact Hchk'']; lia.
Qed.

Lemma rotation_covers (N start q : Z) :
  0 < N -> 0 <= start < N -> 0 <= q < N ->
  exists j, 0 <= j < N /\ (start + j) mod N = q.
Proof.
  intros HN Hs Hq. destruct (Z_lt_le_dec q start).
  - exists (q + N - start). split; [lia|].
    replace (start + (q + N - start)) with (q + 1 * N) by lia.
    rewrite Z.mod_add by lia. apply Z.mod_small. lia.
  - exists (q - start). split; [lia|].
    replace (start + (q - start)) with q by lia. apply Z.mod_small. lia.
Qed.

(** One call of [GetNextPeer] on a pool that satisfies the invariant: it
    returns, the records and the log are as before, and the result is
    described by the scan, offset by offset. *)
Lemma GetNextPeer_scan (w : World) :
  pool_ok w ->
  let N := Z.of_nat (length (backends w)) in
  let start := (current w + 1) mod N in
  exists r w',
    GetNextPeer E w = (Ret r, w') /\
    backends w' = backends w /\ logs w' = logs w /\
    (tick w <= tick w')%nat /\
    match r with
    | Some p =>
        exists k b,
          0 <= k < N /\ Z.of_nat p = (start + k) mod N /\
          current w' = Z.of_nat p /\
          backends w !! p = Some b /\ checked E w w' b true /\
          (tick w' <= tick w + Z.to_nat (k + 1))%nat /\
          forall j, 0 <= j < k ->
            exists b', backends w !! Z.to_nat ((start + j) mod N) = Some b' /\
                       checked E w w' b' false
    | None =>
        current w' = current w /\
        (tick w' <= tick w + length (backends w))%nat /\
        forall q b', backends w !! q = Some b' -> checked E w w' b' false
    end.
Proof.
  intros Hok N start. pose proof Hok as [HN Hc]. fold N in HN, Hc.
  unfold GetNextPeer. rewrite (bind_run _ _ _ _ _ (NextIndex_run w Hok)).
  unfold len_backends. rewrite bind_gets. fold N start.
  pose proof (Z.mod_pos_bound (current w + 1) N ltac:(lia)) as Hstart.
  fold start in Hstart.
  assert (Hl : int_add N start = N + start).
  { unfold int_add. apply int_wrap_id. unfold in_int, int_min, int_max. lia. }
  rewrite Hl. replace (N + start - start) with N by lia.
  unfold N at 1. rewrite Nat2Z.id.
  destruct (GetNextPeer_loop_spec (length (backends w))
              (S (length (backends w))) 0 start w)
    as (r & w' & Hloop & Hbs & Hlogs & Hle & Hres); fold N; try lia.
  rewrite Z.add_0_r in Hloop. fold N in Hloop.
  exists r, w'. split; [exact Hloop|]. repeat split; try assumption.
  unfold scan_result in Hres. fold N in Hres. destruct r as [p|].
  - destruct Hres as (k & b & Hk & Hp & Hcur & Hb & Hchk & Htk & Hprev).
    exists k, b. replace (k - 0 + 1) with (k + 1) in Htk by lia.
    repeat split; try lia; assumption.
  - destruct Hres as (Hcur & Htk & Hall). repeat split; try assumption.
    intros q b' Hq.
    assert (Hqr : 0 <= Z.of_nat q < N).
    { apply lookup_lt_Some in Hq. unfold N. lia. }
    destruct (rotation_covers N start (Z.of_nat q)) as (j & Hj & Hjq); try lia.
    destruct (Hall j Hj) as (b'' & Hb'' & Hchk).
    rewrite Hjq, Nat2Z.id in Hb''. congruence.
Qed.

Lemma checked_const (w w' : World) (b : Backend) (e e' : bool) :
  (forall n, (tick w <= n)%nat -> isEligible b (clock E n) = e) ->
  checked E w w' b e' -> e' = e.
Proof.
  intros Hall. unfold checked.
  destruct (Z.ltb_spec 3 (FailureCount b)).
  - intros (n & Hn & He). rewrite <- He. apply Hall. lia.
  - intros <-. rewrite <- (Hall (tick w)) by lia.
    symmetry. apply isEligible_below_threshold. lia.
Qed.

(** The selector keeps the pool invariant: same slice, cursor still a valid
    index. *)
Lemma GetNextPeer_pool_ok (w w' : World) (r : option nat) :
  pool_ok w -> GetNextPeer E w = (Ret r, w') -> pool_ok w'.
Proof.
  intros Hok Hrun.
  destruct (GetNextPeer_scan w Hok) as (r0 & w0 & Hrun0 & Hbs & _ & _ & Hres).
  rewrite Hrun in Hrun0. injection Hrun0 as <- <-.
  destruct Hok as [HN Hc]. unfold pool_ok. rewrite Hbs. split; [exact HN|].
  destruct r as [q|].
  - destruct Hres as (k & b0 & _ & Hq & Hcur & _). rewrite Hcur, Hq.
    apply Z.mod_pos_bound. lia.
  - destruct Hres as (Hcur & _). now rewrite Hcur.
Qed.

(** C1. On a non-empty pool with a valid cursor, [GetNextPeer] returns (it
    neither panics nor runs out of loop turns) and leaves the records and
    the log alone.  The scan starts at [(cursor+1) mod N] and moves forward
    one index at a time, at most [N] checks in all.  If it returns a backend,
    that backend sits at offset [k < N] of the rotation, its eligibility
    check answered true, the checks of the offsets before [k] answered
    false, and the cursor is now its index.  If it returns nil, the check of
    every backend of the pool answered false and the cursor is unchanged.
    Either way the cursor is again a valid index. *)
Theorem GetNextPeer_round_robin (w : World) :
  pool_ok w ->
  let N := Z.of_nat (length (backends w)) in
  let start := (current w + 1) mod N in
  exists r w',
    GetNextPeer E w = (Ret r, w') /\
    backends w' = backends w /\ logs w' = logs w /\
    (tick w <= tick w')%nat /\ pool_ok w' /\
    match r with
    | Some p =>
        exists k b,
          0 <= k < N /\ Z.of_nat p = (start + k) mod N /\
          current w' = Z.of_nat p /\
          backends w !! p = Some b /\ checked E w w' b true /\
          (tick w' <= tick w + Z.to_nat (k + 1))%nat /\
          forall j, 0 <= j < k ->
            exists b', backends w !! Z.to_nat ((start + j) mod N) = Some b' /\
                       checked E w w' b' false
    | None =>
        current w' = current w /\
        (tick w' <= tick w + length (backends w))%nat /\
        forall q b', backends w !! q = Some b' -> checked E w w' b' false
    end.
Proof.
  intros Hok N start.
  destruct (GetNextPeer_scan w Hok) as (r & w' & Hrun & Hbs & Hlogs & Hle & Hres).
  exists r, w'. split; [exact Hrun|]. split; [exact Hbs|].
  split; [exact Hlogs|]. split; [exact Hle|].
  split; [exact (GetNextPeer_pool_ok w w' r Hok Hrun)|]. exact Hres.
Qed.

(** With every backend eligible at every later observation, the selector
    takes the backend right after the cursor. *)
Lemma GetNextPeer_all_eligible (w : World) :
  pool_ok w ->
  (forall n b, (tick w <= n)%nat -> b ∈ backends w ->
               isEligible b (clock E n) = true) ->
  let N := Z.of_nat (length (backends w)) in
  exists w',
    GetNextPeer E w = (Ret (Some (Z.to_nat ((current w + 1) mod N))), w') /\
    backends w' = backends w /\ logs w' = logs w /\
    (tick w <= tick w')%nat /\ current w' = (current w + 1) mod N.
Proof.
  intros Hok Hall N.
  destruct (GetNextPeer_scan w Hok)
    as (r & w' & Hrun & Hbs & Hlogs & Hle & Hres).
  fold N in Hres. pose proof Hok as [HN Hc]. fold N in HN, Hc.
  pose proof (Z.mod_pos_bound (current w + 1) N ltac:(lia)) as Hstart.
  assert (Hno : forall b, b ∈ backends w -> ~ checked E w w' b false).
  { intros b Hb Hchk. apply (checked_const w w' b true) in Hchk; [discriminate|].
    intros n Hn. now apply Hall. }
  destruct r as [p|].
  - destruct Hres as (k & b & Hk & Hp & Hcur & Hb & Hchk & Htk & Hprev).
    destruct (Z.eq_dec k 0) as [->|Hk0].
    + rewrite Z.add_0_r, Z.mod_mod in Hp by lia.
      exists w'. rewrite <- Hp, Nat2Z.id. repeat split; try assumption.
    + destruct (Hprev 0 ltac:(lia)) as (b' & Hb' & Hchk').
      exfalso. apply (Hno b'); [|exact Hchk'].
      eapply list_elem_of_lookup_2; exact Hb'.
  - destruct Hres as (_ & _ & Hall').
    destruct (lookup_index (backends w) 0 ltac:(fold N; lia)) as [b Hb].
    exfalso. apply (Hno b); [|exact (Hall' _ _ Hb)].
    eapply list_elem_of_lookup_2; exact Hb.
Qed.

(** With no backend eligible at any later observation, the selector returns
    nil and changes nothing. *)
Lemma GetNextPeer_none_eligible (w : World) :
  pool_ok w ->
  (forall n b, (tick w <= n)%nat -> b ∈ backends w ->
               isEligible b (clock E n) = false) ->
  exists w', GetNextPeer E w = (Ret None, w') /\ observes_only w w'.
Proof.
  intros Hok Hall.
  destruct (GetNextPeer_scan w Hok)
    as (r & w' & Hrun & Hbs & Hlogs & Hle & Hres).
  destruct r as [p|].
  - destruct Hres as (k & b & Hk & Hp & Hcur & Hb & Hchk & _).
    apply (checked_const w w' b false) in Hchk; [discriminate|].
    intros n Hn. apply Hall; [exact Hn|].
    eapply list_elem_of_lookup_2; exact Hb.
  - destruct Hres as (Hcur & _). exists w'. split; [exact Hrun|].
    unfold observes_only. auto.
Qed.

End Selection.

(** ** Rotation *)

Section Rotation.

Context (E : Env).

Lemma selections_all_eligible (n : nat) :
  forall w : World,
    pool_ok w -> all_eligible_from E w ->
    exists w',
      selections E n w = (Ret ((fun k => Some (rotation w k)) <$> seq 0 n), w') /\
      backends w' = backends w /\ logs w' = logs w /\
      (tick w <= tick w')%nat.
Proof.
  induction n as [|n IH]; intros w Hok Hall.
  - exists w. simpl. unfold ret. auto.
  - destruct (GetNextPeer_all_eligible E w Hok Hall)
      as (w1 & Hrun & Hbs & Hlogs & Hle & Hcur).
    pose proof Hok as [HN Hc].
    set (N := Z.of_nat (length (backends w))) in *.
    pose proof (Z.mod_pos_bound (current w + 1) N ltac:(lia)) as Hstart.
    assert (Hok1 : pool_ok w1).
    { unfold pool_ok. rewrite Hbs, Hcur. fold N. lia. }
    assert (Hall1 : all_eligible_from E w1).
    { intros m b Hm Hb. apply Hall; [lia|]. now rewrite <- Hbs. }
    destruct (IH w1 Hok1 Hall1) as (w' & Hrun' & Hbs' & Hlogs' & Hle').
    exists w'. split.
    + cbn [selections]. rewrite (bind_run _ _ _ _ _ Hrun).
      rewrite (bind_run _ _ _ _ _ Hrun'). unfold ret. f_equal. f_equal.
      cbn [seq fmap list_fmap]. f_equal.
      * unfold rotation. fold N. now rewrite Z.add_0_r.
      * rewrite <- fmap_S_seq, <- list_fmap_compose.
        apply list_fmap_ext. intros i k _. cbn. f_equal.
        unfold rotation. rewrite Hbs, Hcur. fold N. f_equal.
        rewrite <- Z.add_assoc, Zplus_mod_idemp_l. f_equal. lia.
    + repeat split; try congruence. lia.
Qed.

Lemma rotation_lt (w : World) (k : nat) :
  pool_ok w -> (rotation w k < length (backends w))%nat.
Proof.
  intros [HN Hc]. unfold rotation.
  pose proof (Z.mod_pos_bound (current w + 1 + Z.of_nat k)
                (Z.of_nat (length (backends w))) ltac:(lia)). lia.
Qed.

Lemma rotation_inj (w : World) (k1 k2 : nat) :
  pool_ok w ->
  (k1 < length (backends w))%nat -> (k2 < length (backends w))%nat ->
  rotation w k1 = rotation w k2 -> k1 = k2.
Proof.
  intros [HN Hc] H1 H2. unfold rotation.
  set (N := Z.of_nat (length (backends w))) in *.
  set (c := current w + 1).
  pose proof (Z.mod_pos_bound (c + Z.of_nat k1) N ltac:(lia)).
  pose proof (Z.mod_pos_bound (c + Z.of_nat k2) N ltac:(lia)).
  intros Heq. apply Z2Nat.inj in Heq; try lia.
  pose proof (Z.div_mod (c + Z.of_nat k1) N ltac:(lia)) as D1.
  pose proof (Z.div_mod (c + Z.of_nat k2) N ltac:(lia)) as D2.
  rewrite Heq in D1.
  assert (Hq : N * ((c + Z.of_nat k1) / N - (c + Z.of_nat k2) / N)
               = Z.of_nat k1 - Z.of_nat k2) by lia.
  assert (Hz : (c + Z.of_nat k1) / N - (c + Z.of_nat k2) / N = 0) by nia.
  rewrite Hz in Hq. lia.
Qed.

Lemma rotation_permutation (w : World) :
  pool_ok w ->
  rotation w <$> seq 0 (length (backends w)) ≡ₚ seq 0 (length (backends w)).
Proof.
  intros Hok. apply NoDup_Permutation.
  - apply NoDup_fmap_2_strong; [|apply NoDup_seq].
    intros k1 k2 H1%elem_of_seq H2%elem_of_seq. apply rotation_inj; [exact Hok|lia..].
  - apply NoDup_seq.
  - intros x. rewrite list_elem_of_fmap, elem_of_seq. split.
    + intros (k & -> & _). pose proof (rotation_lt w k Hok). lia.
    + intros Hx. pose proof Hok as [HN Hc].
      set (N := Z.of_nat (length (backends w))) in *.
      pose proof (Z.mod_pos_bound (current w + 1) N ltac:(lia)) as Hstart.
      destruct (rotation_covers N ((current w + 1) mod N) (Z.of_nat x))
        as (j & Hj & Hjx); try lia.
      exists (Z.to_nat j). split; [|apply elem_of_seq; lia].
      unfold rotation. fold N. rewrite Z2Nat.id by lia.
      rewrite Zplus_mod_idemp_l in Hjx. rewrite Hjx. lia.
Qed.

(** C6. In a pool of [N] backends that are all eligible and stay so, [N]
    selections in a row return, in this order, the backends at indices
    [(cursor+1) mod N], [(cursor+2) mod N], ..., [(cursor+N) mod N], where
    [cursor] is the cursor before the first call; this list of indices is a
    permutation of [0 .. N-1], so each backend is returned exactly once. *)
Theorem N_selections_visit_each_once (w : World) :
  pool_ok w -> all_eligible_from E w ->
  let N := length (backends w) in
  exists w',
    selections E N w = (Ret ((fun k => Some (rotation w k)) <$> seq 0 N), w') /\
    rotation w <$> seq 0 N ≡ₚ seq 0 N /\
    (forall k, (k < N)%nat ->
       Z.of_nat (rotation w k) =
         (current w + (1 + Z.of_nat k)) mod Z.of_nat N) /\
    backends w' = backends w.
Proof.
  intros Hok Hall N.
  destruct (selections_all_eligible N w Hok Hall)
    as (w' & Hrun & Hbs & _).
  exists w'. split; [exact Hrun|]. split; [now apply rotation_permutation|].
  split; [|exact Hbs].
  intros k _. unfold rotation. fold N. destruct Hok as [HN Hc]. fold N in HN.
  pose proof (Z.mod_pos_bound (current w + 1 + Z.of_nat k)
                (Z.of_nat N) ltac:(lia)).
  rewrite Z2Nat.id by lia. f_equal. lia.
Qed.

End Rotation.

(** ** Marking *)

Section Marking.

Context (E : Env).




End Marking.

(** ** Health sweep *)

Section Health.

Context (E : Env).

Lemma bind_load {B} (p : nat) (b : Backend) (k : Backend -> M B) (w : World) :
  backends w !! p = Some b -> bind (load p) k w = k b w.
Proof. intros Hb. apply bind_run. now apply load_Some. Qed.

Lemma bind_time_Since {B} (t : Time) (k : Duration -> M B) (w : World) :
  bind (time_Since E t) k w =
    k (Sub (clock E (tick w)) t) (with_tick (S (tick w)) w).
Proof. reflexivity. Qed.

Lemma bind_client_Get {B} (u : string) (k : ProbeResult -> M B) (w : World) :
  bind (client_Get E u) k w = k (probe E (tick w) u) (with_tick (S (tick w)) w).
Proof. reflexivity. Qed.

Lemma bind_log_Printf {B} (e : LogEntry) (k : unit -> M B) (w : World) :
  bind (log_Printf e) k w = k tt (with_logs (e :: logs w) w).
Proof. reflexivity. Qed.

Lemma bind_IsAlive {B} (p : nat) (b : Backend) (k : bool -> M B) (w : World) :
  backends w !! p = Some b ->
  bind (IsAlive E p) k w =
    k (isEligible b (clock E (tick w)))
      (if 3 <? FailureCount b then with_tick (S (tick w)) w else w).
Proof. intros Hb. apply bind_run. now apply IsAlive_run. Qed.

Lemma SetAlive_touches (w : World) (p : nat) (b : Backend) (alive : bool) :
  backends w !! p = Some b ->
  exists w',
    SetAlive E p alive w = (Ret tt, w') /\ touches_only p w w' /\
    tick w' = S (tick w).
Proof.
  intros Hb. eexists. split; [apply (SetAlive_run E w p b alive Hb)|].
  unfold touches_only. cbn. rewrite length_insert. repeat split.
  intros q Hq. now apply list_lookup_insert_ne.
Qed.

Lemma HealthCheck_probe_spec (w : World) (p : nat) (b : Backend) :
  backends w !! p = Some b ->
  exists w',
    HealthCheck_probe E p w = (Ret tt, w') /\ touches_only p w w' /\
    (tick w < tick w')%nat.
Proof.
  intros Hb. unfold HealthCheck_probe.
  rewrite (bind_IsAlive _ _ _ _ Hb).
  set (w1 := if 3 <? FailureCount b then with_tick (S (tick w)) w else w).
  assert (Hb1 : backends w1 !! p = Some b).
  { subst w1. now destruct (3 <? FailureCount b). }
  assert (Hw1 : backends w1 = backends w /\ current w1 = current w /\
                (tick w <= tick w1)%nat).
  { subst w1. destruct (3 <? FailureCount b); cbn; auto with lia. }
  rewrite (bind_load p b) by exact Hb1. rewrite bind_client_Get.
  set (w2 := with_tick (S (tick w1)) w1).
  assert (Hb2 : backends w2 !! p = Some b) by exact Hb1.
  assert (Hfin : forall (alive : bool) (w3 : World),
            backends w3 = backends w -> current w3 = current w ->
            (tick w < tick w3)%nat ->
            exists w', SetAlive E p alive w3 = (Ret tt, w') /\
                       touches_only p w w' /\ (tick w < tick w')%nat).
  { intros alive w3 Hbs3 Hc3 Ht3.
    destruct (SetAlive_touches w3 p b alive) as (w' & Hrun & Htouch & Htk).
    { now rewrite Hbs3. }
    exists w'. split; [exact Hrun|]. split; [|lia].
    destruct Htouch as (Hlen & Hcur & Hoth). unfold touches_only.
    rewrite Hlen, Hcur, Hbs3, Hc3. repeat split.
    intros q Hq. rewrite (Hoth q Hq). now rewrite Hbs3. }
  destruct Hw1 as (Hbs1 & Hc1 & Ht1).
  destruct (probe E (tick w1) _) as [|code].
  - rewrite bind_log_Printf. apply Hfin; subst w2; cbn; auto with lia.
  - destruct (negb (code =? StatusOK)).
    + rewrite bind_log_Printf. apply Hfin; subst w2; cbn; auto with lia.
    + destruct (negb (isEligible b (clock E (tick w)))).
      * rewrite !bind_assoc. rewrite (bind_load p b) by exact Hb2.
        rewrite bind_assoc, bind_time_Since, bind_log_Printf.
        apply Hfin; subst w2; cbn; auto with lia.
      * rewrite bind_ret. apply Hfin; subst w2; cbn; auto with lia.
Qed.

Lemma HealthCheck_body_spec (w : World) (p : nat) (b : Backend) :
  backends w !! p = Some b ->
  exists w',
    HealthCheck_body E p w = (Ret tt, w') /\ touches_only p w w' /\
    (tick w <= tick w')%nat /\
    (3 < FailureCount b ->
     (forall n, (tick w <= n < tick w')%nat ->
                clock E n - LastCheck b < 30 * Second) ->
     backends w' = backends w).
Proof.
  intros Hb. unfold HealthCheck_body.
  rewrite (bind_IsAlive _ _ _ _ Hb).
  assert (Hskip : forall w1 : World,
            backends w1 = backends w -> current w1 = current w ->
            (tick w <= tick w1)%nat ->
            touches_only p w (with_logs
               (LogCircuitBreaker (URL b) (FailureCount b) :: logs w1) w1)).
  { intros w1 Hbs1 Hc1 _. unfold touches_only. cbn. rewrite Hbs1, Hc1. auto. }
  assert (Hprobe : forall w1 : World,
            backends w1 = backends w -> current w1 = current w ->
            (tick w <= tick w1)%nat ->
            exists w', HealthCheck_probe E p w1 = (Ret tt, w') /\
                       touches_only p w w' /\ (tick w1 < tick w')%nat).
  { intros w1 Hbs1 Hc1 Ht1.
    destruct (HealthCheck_probe_spec w1 p b) as (w' & Hrun & Htouch & Htk).
    { now rewrite Hbs1. }
    exists w'. split; [exact Hrun|]. split; [|lia].
    destruct Htouch as (Hlen & Hcur & Hoth). unfold touches_only.
    rewrite Hlen, Hcur, Hbs1, Hc1. repeat split.
    intros q Hq. rewrite (Hoth q Hq). now rewrite Hbs1. }
  unfold isEligible at 1, in_cooldown.
  destruct (Z.ltb_spec 3 (FailureCount b)) as [Hfc|Hfc]; cbn [andb].
  - rewrite (bind_load p b) by exact Hb.
    destruct (Z.ltb_spec 3 (FailureCount b)); [|lia].
    destruct (Z.ltb_spec (clock E (tick w) - LastCheck b) (30 * Second))
      as [Hin|Hout].
    + cbn [negb andb]. rewrite bind_assoc, bind_time_Since, bind_ret.
      cbn [tick with_tick LastCheck]. rewrite Sub_ltb_30s.
      destruct (Z.ltb_spec (clock E (S (tick w)) - LastCheck b) (30 * Second))
        as [Hin'|Hout'].
      * eexists. split; [reflexivity|]. split; [apply Hskip; cbn; auto with lia|].
        cbn. split; [lia|]. auto.
      * destruct (Hprobe (with_tick (S (S (tick w))) (with_tick (S (tick w)) w)))
          as (w' & Hrun & Htouch & Htk); cbn; auto with lia.
        exists w'. split; [exact Hrun|]. split; [exact Htouch|].
        cbn in Htk. split; [lia|]. intros _ Hwin.
        specialize (Hwin (S (tick w)) ltac:(lia)). lia.
    + assert (Hcontra : forall w' : World, (tick w < tick w')%nat ->
                (forall n, (tick w <= n < tick w')%nat ->
                           clock E n - LastCheck b < 30 * Second) -> False).
      { intros w' Hlt Hwin. specialize (Hwin (tick w) ltac:(lia)). lia. }
      destruct (Alive b); cbn [negb andb].
      * rewrite bind_ret.
        destruct (Hprobe (with_tick (S (tick w)) w))
          as (w' & Hrun & Htouch & Htk); cbn; auto with lia.
        exists w'. split; [exact Hrun|]. split; [exact Htouch|].
        cbn in Htk. split; [lia|]. intros _ Hwin. exfalso.
        apply (Hcontra w'); [lia|exact Hwin].
      * rewrite bind_assoc, bind_time_Since, bind_ret.
        cbn [tick with_tick LastCheck]. rewrite Sub_ltb_30s.
        destruct (Z.ltb_spec (clock E (S (tick w)) - LastCheck b) (30 * Second)).
        -- eexists. split; [reflexivity|].
           split; [apply Hskip; cbn; auto with lia|].
           cbn. split; [lia|]. auto.
        -- destruct (Hprobe (with_tick (S (S (tick w))) (with_tick (S (tick w)) w)))
             as (w' & Hrun & Htouch & Htk); cbn; auto with lia.
           exists w'. split; [exact Hrun|]. split; [exact Htouch|].
           cbn in Htk. split; [lia|]. intros _ Hwin. exfalso.
           apply (Hcontra w'); [lia|exact Hwin].
  - rewrite (bind_load p b) by exact Hb.
    destruct (Z.ltb_spec 3 (FailureCount b)); [lia|].
    rewrite andb_false_r, bind_ret.
    destruct (Hprobe w) as (w' & Hrun & Htouch & Htk); auto with lia.
    exists w'. split; [exact Hrun|]. split; [exact Htouch|].
    split; [lia|]. intros; lia.
Qed.

Lemma HealthCheck_sweep (n : nat) :
  forall (i : nat) (w : World),
    (i + n)%nat = length (backends w) ->
    exists w',
      for_range n i (HealthCheck_body E) w = (Ret tt, w') /\
      length (backends w') = length (backends w) /\
      current w' = current w /\ (tick w <= tick w')%nat /\
      (forall q, (q < i)%nat -> backends w' !! q = backends w !! q) /\
      (forall q b, backends w !! q = Some b -> 3 < FailureCount b ->
                   within_window E w w' b -> backends w' !! q = Some b).
Proof.
  induction n as [|n IH]; intros i w Hlen.
  - exists w. cbn. unfold ret. repeat split; auto.
  - destruct (lookup_lt_is_Some_2 (backends w) i ltac:(lia)) as [bi Hbi].
    destruct (HealthCheck_body_spec w i bi Hbi)
      as (w1 & Hrun1 & (Hlen1 & Hcur1 & Hoth1) & Htk1 & Hskip1).
    destruct (IH (S i) w1 ltac:(lia))
      as (w' & Hrun & Hlen' & Hcur' & Htk' & Hlow & Hkeep).
    exists w'. split.
    { cbn [for_range]. rewrite (bind_run _ _ _ _ _ Hrun1). exact Hrun. }
    split; [congruence|]. split; [congruence|]. split; [lia|]. split.
    + intros q Hq. rewrite (Hlow q ltac:(lia)). apply Hoth1. lia.
    + intros q b Hb Hfc Hwin. destruct (Nat.eq_dec q i) as [->|Hne].
      * assert (bi = b) as -> by congruence.
        rewrite (Hlow i ltac:(lia)).
        rewrite Hskip1; [exact Hb|exact Hfc|].
        intros m Hm. apply Hwin. lia.
      * apply Hkeep; [now rewrite (Hoth1 q Hne)|exact Hfc|].
        intros m Hm. apply Hwin. lia.
Qed.

(** C3. Take a record whose failure counter is above 3, and suppose that
    every clock reading taken during a call falls less than 30 seconds
    after the record's [LastCheck].  Then, whatever the [Alive] flag says
    and whatever the probes answer: [IsAlive] returns false; a whole
    [HealthCheck] sweep returns and leaves the record exactly as it was;
    and [GetNextPeer] returns some other backend or nil. *)
Theorem cooldown_excludes_backend (w : World) (p : nat) (b : Backend) :
  backends w !! p = Some b -> 3 < FailureCount b ->
  (exists r w',
     IsAlive E p w = (Ret r, w') /\ (within_window E w w' b -> r = false)) /\
  (exists w',
     HealthCheck E w = (Ret tt, w') /\
     (within_window E w w' b -> backends w' !! p = Some b)) /\
  (pool_ok w ->
   exists r w',
     GetNextPeer E w = (Ret r, w') /\ (within_window E w w' b -> r <> Some p)).
Proof.
  intros Hb Hfc. split; [|split].
  - eexists _, _. split; [apply (IsAlive_run E w p b Hb)|].
    destruct (Z.ltb_spec 3 (FailureCount b)); [|lia].
    intros Hwin. specialize (Hwin (tick w)). cbn in Hwin.
    unfold isEligible, in_cooldown.
    destruct (Z.ltb_spec 3 (FailureCount b)); [|lia].
    destruct (Z.ltb_spec (clock E (tick w) - LastCheck b) (30 * Second));
      [reflexivity|lia].
  - unfold HealthCheck. rewrite bind_gets.
    destruct (HealthCheck_sweep (length (backends w)) 0%nat w eq_refl)
      as (w' & Hrun & _ & _ & _ & _ & Hkeep).
    exists w'. split; [exact Hrun|]. intros Hwin. now apply (Hkeep p b).
  - intros Hok.
    destruct (GetNextPeer_scan E w Hok)
      as (r & w' & Hrun & Hbs & Hlogs & Hle & Hres).
    exists r, w'. split; [exact Hrun|]. intros Hwin ->.
    destruct Hres as (k & b' & _ & _ & _ & Hb' & Hchk & _).
    assert (b' = b) as -> by congruence.
    unfold checked in Hchk.
    destruct (Z.ltb_spec 3 (FailureCount b)); [|lia].
    destruct Hchk as (n & Hn & He). specialize (Hwin n Hn).
    unfold isEligible, in_cooldown in He.
    destruct (Z.ltb_spec 3 (FailureCount b)); [|lia].
    destruct (Z.ltb_spec (clock E n - LastCheck b) (30 * Second));
      [discriminate|lia].
Qed.

End Health.

(** ** Front door *)

Section FrontDoor.

Context (E : Env).

Lemma countHealthyBackends_loop_spec (n : nat) :
  forall (i : nat) (count : Z) (w : World),
    (i + n)%nat = length (backends w) ->
    Z.of_nat (length (backends w)) < 2 ^ 60 ->
    0 <= count <= Z.of_nat i ->
    exists es w',
      countHealthyBackends_loop E n i count w
        = (Ret (count + count_true es), w') /\
      observes_only w w' /\
      Forall2 (checked E w w') (drop i (backends w)) es.
Proof.
  induction n as [|n IH]; intros i count w Hlen Hfit Hcount.
  - exists [], w. cbn. unfold ret. rewrite Z.add_0_r.
    split; [reflexivity|]. split; [unfold observes_only; auto|].
    rewrite drop_ge by lia. constructor.
  - destruct (lookup_lt_is_Some_2 (backends w) i ltac:(lia)) as [b Hb].
    destruct (IsAlive_checked E w i b Hb)
      as (w1 & Hrun1 & (Hbs1 & Hcur1 & Hlogs1 & Hle1) & _ & Hchk1).
    set (e := isEligible b (clock E (tick w))) in *.
    assert (Hcount' : (if e then int_add count 1 else count)
                      = count + (if e then 1 else 0)).
    { destruct e; [|lia]. unfold int_add. apply int_wrap_id.
      unfold in_int, int_min, int_max. lia. }
    destruct (IH (S i) (count + (if e then 1 else 0)) w1)
      as (es & w' & Hrun & (Hbs & Hcur & Hlogs & Hle) & Hall).
    { rewrite Hbs1. lia. }
    { now rewrite Hbs1. }
    { destruct e; lia. }
    exists (e :: es), w'. split.
    { cbn [countHealthyBackends_loop]. rewrite (bind_run _ _ _ _ _ Hrun1).
      rewrite Hcount', Hrun. cbn [count_true]. f_equal. f_equal. lia. }
    split.
    { unfold observes_only. repeat split; try congruence. lia. }
    rewrite (drop_S _ _ _ Hb). constructor.
    + eapply checked_widen; [| |exact Hchk1]; lia.
    + rewrite Hbs1 in Hall. eapply Forall2_impl; [exact Hall|].
      intros b' e' Hc. eapply checked_widen; [| |exact Hc]; lia.
Qed.

Lemma countHealthyBackends_spec (w : World) :
  Z.of_nat (length (backends w)) < 2 ^ 60 ->
  exists es w',
    countHealthyBackends E w = (Ret (count_true es), w') /\
    observes_only w w' /\
    Forall2 (checked E w w') (backends w) es.
Proof.
  intros Hfit. unfold countHealthyBackends. rewrite bind_gets.
  destruct (countHealthyBackends_loop_spec (length (backends w)) 0 0 w)
    as (es & w' & Hrun & Hobs & Hall); try lia.
  exists es, w'. rewrite Hrun. auto.
Qed.

Lemma count_true_none (w w' : World) (es : list bool) :
  none_eligible_from E w ->
  Forall2 (checked E w w') (backends w) es -> count_true es = 0.
Proof.
  intros Hnone Hall.
  assert (Hin : forall b, b ∈ backends w ->
            forall n, (tick w <= n)%nat -> isEligible b (clock E n) = false).
  { intros b Hb n Hn. now apply Hnone. }
  induction Hall as [|b e bs es Hc Hall IH]; [reflexivity|].
  cbn [count_true]. rewrite IH.
  - apply (checked_const E w w' b false) in Hc; [now subst e|].
    apply Hin. constructor.
  - intros b' Hb'. apply Hin. now constructor.
Qed.

Lemma healthHandler_spec (w : World) (r : Request) :
  Z.of_nat (length (backends w)) < 2 ^ 60 ->
  exists es resp w',
    healthHandler E r w = (Ret resp, w') /\
    observes_only w w' /\
    Forall2 (checked E w w') (backends w) es /\
    (count_true es = 0 -> StatusCode resp = StatusServiceUnavailable) /\
    (count_true es <> 0 -> StatusCode resp = StatusOK).
Proof.
  intros Hfit.
  destruct (countHealthyBackends_spec w Hfit) as (es & w' & Hrun & Hobs & Hall).
  unfold healthHandler. rewrite (bind_run _ _ _ _ _ Hrun).
  destruct (Z.eqb_spec (count_true es) 0) as [Hz|Hz].
  - eexists es, _, w'. split; [reflexivity|]. cbn.
    split; [exact Hobs|]. split; [exact Hall|]. split; [reflexivity|].
    intros; contradiction.
  - unfold len_backends. rewrite bind_gets.
    eexists es, _, w'. split; [reflexivity|]. cbn.
    split; [exact Hobs|]. split; [exact Hall|]. split; [|reflexivity].
    intros; contradiction.
Qed.

(** C7. While no backend of the (non-empty) pool is eligible, the handler of
    the default route answers every request with 503, without forwarding
    anything and leaving the records as they are, and the handler of
    [/health] answers every request with 503. *)
Theorem total_outage_503 (w : World) (fuel : nat) (r : Request) :
  pool_ok w -> none_eligible_from E w ->
  (exists resp w',
     loadBalancer E fuel r w = (Ret resp, w') /\
     StatusCode resp = 503 /\ backends w' = backends w /\
     logs w' = LogNoHealthy :: logs w) /\
  (exists resp w',
     healthHandler E r w = (Ret resp, w') /\ StatusCode resp = 503).
Proof.
  intros Hok Hnone.
  assert (Hlb : exists resp w',
     loadBalancer E fuel r w = (Ret resp, w') /\
     StatusCode resp = 503 /\ backends w' = backends w /\
     logs w' = LogNoHealthy :: logs w).
  { destruct (GetNextPeer_none_eligible E w Hok Hnone)
      as (w1 & Hrun & Hbs & Hcur & Hlogs & _).
    unfold loadBalancer. rewrite (bind_run _ _ _ _ _ Hrun).
    eexists _, _. split; [reflexivity|]. cbn.
    split; [reflexivity|]. split; [exact Hbs|]. now rewrite Hlogs. }
  assert (Hh : exists resp w',
     healthHandler E r w = (Ret resp, w') /\ StatusCode resp = 503).
  { destruct Hok as [HN _].
    destruct (healthHandler_spec w r ltac:(lia))
      as (es & resp & w' & Hrun & _ & Hall & Hz & _).
    exists resp, w'. split; [exact Hrun|]. apply Hz.
    now apply (count_true_none w w'). }
  split; [exact Hlb|exact Hh].
Qed.

Lemma statusHandler_loop_spec (n : nat) :
  forall (i : nat) (acc : list BackendStatus) (w : World),
    (i + n)%nat = length (backends w) ->
    exists bss w',
      statusHandler_loop E n i acc w = (Ret bss, w') /\
      observes_only w w' /\ length bss = (length acc + n)%nat.
Proof.
  induction n as [|n IH]; intros i acc w Hlen.
  - exists acc, w. cbn. unfold ret, observes_only. repeat split; lia.
  - destruct (lookup_lt_is_Some_2 (backends w) i ltac:(lia)) as [b Hb].
    cbn [statusHandler_loop]. rewrite (bind_load i b) by exact Hb.
    set (k := fun cooling : bool => statusHandler_loop E n (S i) (acc ++ _)).
    assert (Hk : forall (c : bool) (w1 : World),
              observes_only w w1 ->
              exists bss w',
                k c w1 = (Ret bss, w') /\ observes_only w w' /\
                length bss = (length acc + S n)%nat).
    { intros c w1 (Hbs1 & Hcur1 & Hlogs1 & Hle1). subst k. cbv beta.
      destruct (IH (S i) (acc ++
                   [if c then mkBackendStatus (URL b) false (FailureCount b)
                                 (LastCheck b)
                    else mkBackendStatus (URL b) (Alive b) (FailureCount b)
                                 (LastCheck b)]) w1)
        as (bss & w' & Hrun & (Hbs & Hcur & Hlogs & Hle) & Hl).
      { rewrite Hbs1. lia. }
      exists bss, w'. split; [exact Hrun|]. split.
      - unfold observes_only. repeat split; try congruence. lia.
      - rewrite Hl, length_app. cbn. lia. }
    fold k. destruct (3 <? FailureCount b).
    + rewrite bind_assoc, bind_time_Since, bind_ret. apply Hk.
      unfold observes_only. cbn. auto with lia.
    + rewrite bind_ret. apply Hk. unfold observes_only. auto with lia.
Qed.

(** C8. The [healthy_backends] field of the [/status] answer is the number
    of records of the pool whose eligibility check, run while the answer is
    built, returned true.  The answer is ["degraded"] with code 503 exactly
    when that number is zero, and ["operational"] with code 200 otherwise.
    The handler changes neither the pool nor the cursor. *)
Theorem status_reports_eligible_count (w : World) (r : Request) :
  pool_ok w ->
  exists (es : list bool) (resp : Response) (sr : StatusResponse) (w' : World),
    statusHandler E r w = (Ret resp, w') /\
    RespBody resp = Json sr /\
    Forall2 (checked E w w') (backends w) es /\
    HealthyBackends sr = count_true es /\
    TotalBackends sr = Z.of_nat (length (backends w)) /\
    (count_true es = 0 <-> StatusCode resp = 503) /\
    (count_true es = 0 <-> Status sr = "degraded") /\
    (count_true es <> 0 -> StatusCode resp = 200 /\ Status sr = "operational") /\
    backends w' = backends w /\ current w' = current w.
Proof.
  intros [HN Hc].
  destruct (countHealthyBackends_spec w ltac:(lia))
    as (es & w1 & Hrun1 & (Hbs1 & Hcur1 & Hlogs1 & Hle1) & Hall).
  destruct (statusHandler_loop_spec (length (backends w1)) 0 [] w1 eq_refl)
    as (bss & w' & Hrun & (Hbs & Hcur & Hlogs & Hle) & _).
  assert (Hall' : Forall2 (checked E w w') (backends w) es).
  { eapply Forall2_impl; [exact Hall|]. intros b e Hchk.
    eapply checked_widen; [| |exact Hchk]; lia. }
  unfold statusHandler, len_backends. rewrite bind_gets.
  rewrite (bind_run _ _ _ _ _ Hrun1). rewrite !bind_gets.
  rewrite (bind_run _ _ _ _ _ Hrun). cbn [HealthyBackends].
  destruct (Z.eqb_spec (count_true es) 0) as [Hz|Hz].
  - eexists es, _, _, w'. split; [reflexivity|]. cbn.
    repeat split; try congruence; auto.
  - eexists es, _, _, w'. split; [reflexivity|]. cbn.
    repeat split; try congruence; auto; try discriminate.
    all: intros; try contradiction; discriminate.
Qed.

(** C10. Neither [/health] nor [/status] looks at the request method: for
    a request with either path, the answer of the mux (code and body) and
    the world it leaves are the same whatever the method, in particular
    the same as for [GET]; the two handlers give the same result on any two
    requests at all. *)
Theorem operational_routes_ignore_method
    (w : World) (fuel : nat) (r : Request) (m : string) :
  Path r = "/health" \/ Path r = "/status" ->
  mux_ServeHTTP E fuel (with_Method m r) w
    = mux_ServeHTTP E fuel (with_Method "GET" r) w /\
  (forall r' : Request,
     healthHandler E r w = healthHandler E r' w /\
     statusHandler E r w = statusHandler E r' w).
Proof.
  intros Hpath. split; [|intros r'; split; reflexivity].
  unfold mux_ServeHTTP, with_Method. cbn [Path].
  destruct Hpath as [-> | ->]; reflexivity.
Qed.

End FrontDoor.

(** ** A backend that is down *)

Section Down.

Context (E : Env).

Lemma isEligible_not_alive (b : Backend) (t : Time) :
  Alive b = false -> isEligible b t = false.
Proof. unfold isEligible. intros ->. now destruct (in_cooldown b t). Qed.

Lemma isEligible_after_window (b : Backend) (t : Time) :
  30 * Second <= t - LastCheck b -> isEligible b t = Alive b.
Proof.
  intros H. unfold isEligible, in_cooldown.
  destruct (Z.ltb_spec (t - LastCheck b) (30 * Second)); [lia|].
  now rewrite andb_false_r.
Qed.

Lemma checked_not_alive (w w' : World) (b : Backend) :
  Alive b = false -> ~ checked E w w' b true.
Proof.
  intros Ha Hchk. apply (checked_const E w w' b false) in Hchk; [discriminate|].
  intros n _. now apply isEligible_not_alive.
Qed.

Lemma run_ops_down (ops : list PoolOp) :
  forall (w : World) (p : nat) (b : Backend),
    pool_ok w -> backends w !! p = Some b -> Alive b = false ->
    Forall (no_markSuccess p (length (backends w))) ops ->
    exists rs w' b',
      run_ops E ops w = (Ret rs, w') /\ (Some p ∉ rs) /\
      length (backends w') = length (backends w) /\
      backends w' !! p = Some b' /\ Alive b' = false.
Proof.
  induction ops as [|op ops IH]; intros w p b Hok Hb Ha Hops.
  - exists [], w, b. cbn. unfold ret. repeat split; auto. apply not_elem_of_nil.
  - apply Forall_cons in Hops as [Hop Hops]. destruct op as [|q alive].
    + destruct (GetNextPeer_scan E w Hok)
        as (r & w1 & Hrun & Hbs & Hlogs & Hle & Hres).
      assert (Hr : r <> Some p).
      { intros ->. destruct Hres as (k & b0 & _ & _ & _ & Hb0 & Hchk & _).
        assert (b0 = b) as -> by congruence.
        now apply (checked_not_alive w w1 b). }
      pose proof (GetNextPeer_pool_ok E w w1 r Hok Hrun) as Hok1.
      destruct (IH w1 p b Hok1) as (rs & w' & b' & Hrun' & Hnot & Hlen & Hb' & Ha');
        try (rewrite Hbs; assumption); try assumption.
      exists (r :: rs), w', b'. split.
      { cbn [run_ops do_op]. rewrite bind_assoc.
        rewrite (bind_run _ _ _ _ _ Hrun), bind_ret.
        now rewrite (bind_run _ _ _ _ _ Hrun'). }
      split; [|rewrite Hlen, Hbs; auto].
      intros [Heq|Hin]%elem_of_cons; [congruence|contradiction].
    + destruct Hop as [Hq Hfalse].
      destruct (lookup_lt_is_Some_2 (backends w) q Hq) as [bq Hbq].
      pose proof (SetAlive_run E w q bq alive Hbq) as Hrun.
      set (bq' := mkBackend (URL bq) alive _ _) in Hrun.
      set (w1 := with_backends _ _) in Hrun.
      assert (Hlen1 : length (backends w1) = length (backends w)).
      { subst w1. cbn. apply length_insert. }
      assert (Hok1 : pool_ok w1).
      { unfold pool_ok. rewrite Hlen1. exact Hok. }
      assert (Hb1 : exists b1, backends w1 !! p = Some b1 /\ Alive b1 = false).
      { subst w1. cbn. destruct (Nat.eq_dec q p) as [->|Hne].
        - exists bq'. split; [now apply list_lookup_insert_eq|].
          subst bq'. cbn. auto.
        - exists b. split; [|exact Ha]. now rewrite list_lookup_insert_ne. }
      destruct Hb1 as (b1 & Hb1 & Ha1).
      destruct (IH w1 p b1 Hok1 Hb1 Ha1)
        as (rs & w' & b' & Hrun' & Hnot & Hlen & Hb' & Ha').
      { now rewrite Hlen1. }
      exists rs, w', b'. split.
      { cbn [run_ops do_op]. rewrite bind_assoc.
        rewrite (bind_run _ _ _ _ _ Hrun), bind_ret.
        now rewrite (bind_run _ _ _ _ _ Hrun'). }
      split; [exact Hnot|]. rewrite Hlen, Hlen1. auto.
Qed.

(** C9. Once 30 seconds have passed since [LastCheck], [IsAlive] returns
    the [Alive] flag as it is.  And a backend whose flag is false is never
    returned by the selector, whatever the clock does and however many
    selections and markings are run, as long as none of them is
    [SetAlive(true)] on that backend; at the end its flag is still false and
    its eligibility check fails at every instant. *)
Theorem down_backend_stays_excluded
    (w : World) (p : nat) (b : Backend) (ops : list PoolOp) :
  pool_ok w -> backends w !! p = Some b ->
  (30 * Second <= clock E (tick w) - LastCheck b ->
   exists w', IsAlive E p w = (Ret (Alive b), w') /\ observes_only w w') /\
  (Alive b = false ->
   Forall (no_markSuccess p (length (backends w))) ops ->
   exists rs w' b',
     run_ops E ops w = (Ret rs, w') /\ (Some p ∉ rs) /\
     backends w' !! p = Some b' /\ Alive b' = false /\
     forall t, isEligible b' t = false).
Proof.
  intros Hok Hb. split.
  - intros Hexp. destruct (IsAlive_checked E w p b Hb) as (w' & Hrun & Hobs & _).
    rewrite isEligible_after_window in Hrun by exact Hexp. eauto.
  - intros Ha Hops.
    destruct (run_ops_down ops w p b Hok Hb Ha Hops)
      as (rs & w' & b' & Hrun & Hnot & _ & Hb' & Ha').
    exists rs, w', b'. repeat split; try assumption.
    intros t. now apply isEligible_not_alive.
Qed.

End Down.

(** ** Reactive failover *)

Section Failover.

Context (E : Env).

Lemma MarkBackendStatus_loop_spec (url : string) (alive : bool) (n : nat) :
  forall (i : nat) (w : World),
    (i + n)%nat = length (backends w) ->
    (forall j y, (j < i)%nat -> backends w !! j = Some y -> URL y <> url) ->
    exists w',
      MarkBackendStatus_loop E n i url alive w = (Ret tt, w') /\
      current w' = current w /\ logs w' = logs w /\
      match first_with_url url (backends w) with
      | Some (q, b) =>
          backends w' =
            <[q := mkBackend (URL b) alive
                     (if alive then 0 else int_add (FailureCount b) 1)
                     (clock E (tick w))]> (backends w) /\
          tick w' = S (tick w)
      | None => backends w' = backends w /\ tick w' = tick w
      end.
Proof.
  induction n as [|n IH]; intros i w Hlen Hbefore.
  - exists w. cbn. unfold ret. repeat split.
    assert (Hnone : first_with_url url (backends w) = None).
    { apply list_find_None, Forall_forall. intros y Hy.
      apply list_elem_of_lookup in Hy as [j Hj].
      apply (Hbefore j); [|exact Hj]. apply lookup_lt_Some in Hj. lia. }
    rewrite Hnone. auto.
  - destruct (lookup_lt_is_Some_2 (backends w) i ltac:(lia)) as [b Hb].
    cbn [MarkBackendStatus_loop]. rewrite (bind_load i b) by exact Hb.
    destruct (String.eqb_spec (URL b) url) as [Heq|Hne].
    + assert (Hfind : first_with_url url (backends w) = Some (i, b)).
      { apply list_find_Some. split; [exact Hb|]. split; [exact Heq|].
        intros j y Hj Hlt. now apply (Hbefore j). }
      rewrite Hfind, (SetAlive_run E w i b alive Hb).
      eexists. split; [reflexivity|]. cbn. auto.
    + apply IH; [lia|]. intros j y Hj Hy.
      destruct (Nat.eq_dec j i) as [->|Hji]; [congruence|].
      apply (Hbefore j); [lia|exact Hy].
Qed.

Lemma MarkBackendStatus_spec (url : string) (alive : bool) (w : World) :
  exists w',
    MarkBackendStatus E url alive w = (Ret tt, w') /\
    current w' = current w /\ logs w' = logs w /\
    length (backends w') = length (backends w) /\
    (tick w <= tick w')%nat /\
    match first_with_url url (backends w) with
    | Some (q, b) =>
        backends w' =
          <[q := mkBackend (URL b) alive
                   (if alive then 0 else int_add (FailureCount b) 1)
                   (clock E (tick w))]> (backends w) /\
        tick w' = S (tick w)
    | None => backends w' = backends w /\ tick w' = tick w
    end.
Proof.
  unfold MarkBackendStatus. rewrite bind_gets.
  destruct (MarkBackendStatus_loop_spec url alive (length (backends w)) 0 w)
    as (w' & Hrun & Hcur & Hlogs & Hfind); [reflexivity|intros; lia|].
  exists w'. split; [exact Hrun|]. split; [exact Hcur|]. split; [exact Hlogs|].
  destruct (first_with_url url (backends w)) as [[q b]|].
  - destruct Hfind as [-> ->]. rewrite length_insert. auto with lia.
  - destruct Hfind as [-> ->]. auto with lia.
Qed.

Lemma bind_transport_RoundTrip {B} (u : string) (r : Request)
    (k : option Response -> M B) (w : World) :
  bind (transport_RoundTrip E u r) k w =
    k (roundTrip E (tick w) u r) (with_tick (S (tick w)) w).
Proof. reflexivity. Qed.

Lemma ServeHTTP_forwarded (w : World) (fuel : nat) (url : string)
    (r : Request) (resp : Response) :
  roundTrip E (tick w) url r = Some resp ->
  ReverseProxy_ServeHTTP E (S fuel) url r w
    = (Ret resp, with_tick (S (tick w)) w).
Proof.
  intros Hrt. cbn [ReverseProxy_ServeHTTP].
  rewrite bind_transport_RoundTrip, Hrt. reflexivity.
Qed.

Lemma ErrorHandler_step (w : World) (fuel : nat) (url : string) (r : Request) :
  pool_ok w -> roundTrip E (tick w) url r = None ->
  exists w1 peer w2,
    MarkBackendStatus E url false (after_error url w) = (Ret tt, w1) /\
    match first_with_url url (backends w) with
    | Some (q, b) =>
        backends w1 =
          <[q := mkBackend (URL b) false (int_add (FailureCount b) 1)
                   (clock E (S (tick w)))]> (backends w)
    | None => backends w1 = backends w
    end /\
    GetNextPeer E w1 = (Ret peer, w2) /\
    pool_ok w2 /\ backends w2 = backends w1 /\ (tick w < tick w2)%nat /\
    match peer with
    | Some p =>
        exists pb,
          backends w1 !! p = Some pb /\ checked E w1 w2 pb true /\
          ReverseProxy_ServeHTTP E (S fuel) url r w =
            if String.eqb (URL pb) url
            then (Ret unavailable, with_logs (LogNoHealthyRetry :: logs w2) w2)
            else ReverseProxy_ServeHTTP E fuel (URL pb) r
                   (with_logs (LogRetrying (URL pb) :: logs w2) w2)
    | None =>
        (forall q b, backends w1 !! q = Some b -> checked E w1 w2 b false) /\
        ReverseProxy_ServeHTTP E (S fuel) url r w =
          (Ret unavailable, with_logs (LogNoHealthyRetry :: logs w2) w2)
    end.
Proof.
  intros Hok Hrt.
  destruct (MarkBackendStatus_spec url false (after_error url w))
    as (w1 & Hmark & Hcur1 & Hlogs1 & Hlen1 & Htk1 & Heff).
  assert (Hok1 : pool_ok w1).
  { unfold pool_ok. rewrite Hlen1, Hcur1. exact Hok. }
  destruct (GetNextPeer_scan E w1 Hok1)
    as (peer & w2 & Hsel & Hbs2 & Hlogs2 & Htk2 & Hres).
  pose proof (GetNextPeer_pool_ok E w1 w2 peer Hok1 Hsel) as Hok2.
  exists w1, peer, w2. split; [exact Hmark|]. split.
  { cbn [after_error backends with_logs with_tick tick] in Heff.
    destruct (first_with_url url (backends w)) as [[q b]|];
      destruct Heff as [Heff _]; exact Heff. }
  split; [exact Hsel|].
  split; [exact Hok2|]. split; [exact Hbs2|].
  split; [cbn in Htk1; lia|].
  destruct peer as [p|].
  - destruct Hres as (k & pb & _ & _ & _ & Hpb & Hchk & _).
    exists pb. split; [exact Hpb|]. split; [exact Hchk|].
    cbn [ReverseProxy_ServeHTTP]. rewrite bind_transport_RoundTrip, Hrt.
    unfold ErrorHandler. rewrite bind_log_Printf.
    fold (after_error url w). rewrite (bind_run _ _ _ _ _ Hmark).
    rewrite (bind_run _ _ _ _ _ Hsel).
    rewrite (bind_load p pb) by (now rewrite Hbs2).
    destruct (String.eqb (URL pb) url); reflexivity.
  - destruct Hres as (_ & _ & Hall). split; [exact Hall|].
    cbn [ReverseProxy_ServeHTTP]. rewrite bind_transport_RoundTrip, Hrt.
    unfold ErrorHandler. rewrite bind_log_Printf.
    fold (after_error url w). rewrite (bind_run _ _ _ _ _ Hmark).
    rewrite (bind_run _ _ _ _ _ Hsel). reflexivity.
Qed.

Lemma alive_count_insert (bs : list Backend) :
  forall (q : nat) (b x : Backend),
    bs !! q = Some b ->
    (alive_count (<[q := x]> bs) + (if Alive b then 1 else 0)
     = alive_count bs + (if Alive x then 1 else 0))%nat.
Proof.
  induction bs as [|y bs IH]; intros q b x Hq; [discriminate|].
  destruct q as [|q]; cbn [alive_count] in *.
  - injection Hq as ->. change (<[0%nat := x]> (b :: bs)) with (x :: bs).
    cbn [alive_count]. lia.
  - specialize (IH q b x Hq). change (<[S q := x]> (y :: bs)) with (y :: <[q := x]> bs).
    cbn [alive_count]. destruct (Alive y), (Alive b), (Alive x); lia.
Qed.

Lemma alive_count_pos (bs : list Backend) (q : nat) (b : Backend) :
  bs !! q = Some b -> Alive b = true -> (0 < alive_count bs)%nat.
Proof.
  revert q. induction bs as [|y bs IH]; intros q Hq Ha; [discriminate|].
  destruct q as [|q]; cbn in *.
  - injection Hq as ->. rewrite Ha. lia.
  - specialize (IH q Hq Ha). lia.
Qed.

Lemma checked_true_alive (w w' : World) (b : Backend) :
  checked E w w' b true -> Alive b = true.
Proof.
  intros Hchk. destruct (Alive b) eqn:Ha; [reflexivity|].
  now apply checked_not_alive in Hchk.
Qed.

Lemma urls_insert_same (bs : list Backend) (q : nat) (b x : Backend) :
  bs !! q = Some b -> URL x = URL b ->
  URL <$> <[q := x]> bs = URL <$> bs.
Proof.
  intros Hq Hurl. rewrite list_fmap_insert, Hurl.
  apply list_insert_id. now rewrite list_lookup_fmap, Hq.
Qed.

Lemma distinct_urls_index (bs : list Backend) (q q' : nat) (b b' : Backend) :
  NoDup (URL <$> bs) -> bs !! q = Some b -> bs !! q' = Some b' ->
  URL b = URL b' -> q = q'.
Proof.
  intros Hnd Hq Hq' Hurl.
  apply (proj1 (NoDup_alt _) Hnd q q' (URL b)).
  - now rewrite list_lookup_fmap, Hq.
  - now rewrite list_lookup_fmap, Hq', Hurl.
Qed.

(** With pairwise distinct URLs every failed forward turns one more [Alive]
    flag off, so a chain of retries that starts at a backend whose flag is
    set forwards at most as many times as there are flags set. *)
Lemma failover_chain (fuel : nat) :
  forall (w : World) (url : string) (r : Request),
    pool_ok w -> distinct_urls w ->
    (exists q b, backends w !! q = Some b /\ URL b = url /\ Alive b = true) ->
    (alive_count (backends w) <= fuel)%nat ->
    exists resp w',
      ReverseProxy_ServeHTTP E fuel url r w = (Ret resp, w') /\
      pool_ok w' /\ URL <$> backends w' = URL <$> backends w.
Proof.
  induction fuel as [|fuel IH]; intros w url r Hok Hnd (q0 & b0 & Hq0 & Hu0 & Ha0) Hcnt.
  - pose proof (alive_count_pos _ _ _ Hq0 Ha0). lia.
  - destruct (roundTrip E (tick w) url r) as [resp|] eqn:Hrt.
    + rewrite (ServeHTTP_forwarded w fuel url r resp Hrt).
      eexists _, _. split; [reflexivity|]. cbn. split; [exact Hok|reflexivity].
    + destruct (ErrorHandler_step w fuel url r Hok Hrt)
        as (w1 & peer & w2 & Hmark & Heff & Hsel & Hok2 & Hbs2 & Htk & Hres).
      assert (Hfind : first_with_url url (backends w) = Some (q0, b0)).
      { apply list_find_Some. split; [exact Hq0|]. split; [exact Hu0|].
        intros j y Hj Hlt Hy.
        assert (j = q0) by (eapply distinct_urls_index; eauto; congruence).
        lia. }
      rewrite Hfind in Heff.
      set (b1 := mkBackend (URL b0) false (int_add (FailureCount b0) 1)
                   (clock E (S (tick w)))) in Heff.
      assert (Hurls : URL <$> backends w1 = URL <$> backends w).
      { rewrite Heff. now apply (urls_insert_same _ _ b0). }
      assert (Hcnt1 : (alive_count (backends w1) <= fuel)%nat).
      { pose proof (alive_count_insert (backends w) q0 b0 b1 Hq0) as Hins.
        rewrite <- Heff, Ha0 in Hins. cbn in Hins. lia. }
      assert (Hq1 : backends w1 !! q0 = Some b1).
      { rewrite Heff. apply list_lookup_insert_eq.
        now apply lookup_lt_Some in Hq0. }
      destruct peer as [p|].
      * destruct Hres as (pb & Hpb & Hchk & Hserve).
        pose proof (checked_true_alive _ _ _ Hchk) as Hapb.
        assert (Hne : URL pb <> url).
        { intros Heq.
          assert (p = q0).
          { eapply (distinct_urls_index (backends w1)); eauto.
            - unfold distinct_urls in Hnd. now rewrite Hurls.
            - subst b1. cbn. congruence. }
          subst p. assert (pb = b1) by congruence. subst pb. discriminate. }
        rewrite Hserve. destruct (String.eqb_spec (URL pb) url); [contradiction|].
        destruct (IH (with_logs (LogRetrying (URL pb) :: logs w2) w2) (URL pb) r)
          as (resp & w' & Hrun & Hok' & Hurls').
        -- exact Hok2.
        -- unfold distinct_urls. cbn. rewrite Hbs2, Hurls. exact Hnd.
        -- exists p, pb. cbn. rewrite Hbs2. auto.
        -- cbn. now rewrite Hbs2.
        -- exists resp, w'. split; [exact Hrun|]. split; [exact Hok'|].
           rewrite Hurls'. cbn. now rewrite Hbs2.
      * destruct Hres as (_ & Hserve). rewrite Hserve.
        eexists _, _. split; [reflexivity|]. cbn.
        split; [exact Hok2|]. now rewrite Hbs2.
Qed.

(** C2 (corrected form).  When the forward to [url] fails, the error handler of
    that proxy logs the error, marks the first record with that URL down
    ([SetAlive(false)]: flag off, counter incremented, [LastCheck]
    stamped), and only then runs the selector, once.  If the selector
    returns nil, or a backend with the same URL, the handler answers 503.
    If it returns a backend with another URL (whose eligibility check
    answered true), the request is handed to that backend's proxy: what this
    proxy answers is the answer, and if its forward fails as well its own
    error handler runs in turn.  With pairwise distinct URLs and as much
    fuel as there are [Alive] flags set, the whole chain ends with an
    answer. *)
Theorem ErrorHandler_failover
    (w : World) (fuel : nat) (url : string) (r : Request) :
  pool_ok w -> roundTrip E (tick w) url r = None ->
  (exists w1 peer w2,
     MarkBackendStatus E url false (after_error url w) = (Ret tt, w1) /\
     match first_with_url url (backends w) with
     | Some (q, b) =>
         backends w1 =
           <[q := mkBackend (URL b) false (int_add (FailureCount b) 1)
                    (clock E (S (tick w)))]> (backends w)
     | None => backends w1 = backends w
     end /\
     GetNextPeer E w1 = (Ret peer, w2) /\ backends w2 = backends w1 /\
     match peer with
     | Some p =>
         exists pb,
           backends w1 !! p = Some pb /\ checked E w1 w2 pb true /\
           ReverseProxy_ServeHTTP E (S fuel) url r w =
             if String.eqb (URL pb) url
             then (Ret unavailable,
                   with_logs (LogNoHealthyRetry :: logs w2) w2)
             else ReverseProxy_ServeHTTP E fuel (URL pb) r
                    (with_logs (LogRetrying (URL pb) :: logs w2) w2)
     | None =>
         ReverseProxy_ServeHTTP E (S fuel) url r w =
           (Ret unavailable, with_logs (LogNoHealthyRetry :: logs w2) w2)
     end) /\
  (distinct_urls w -> (alive_count (backends w) <= fuel)%nat ->
   exists resp w', ReverseProxy_ServeHTTP E (S fuel) url r w = (Ret resp, w')).
Proof.
  intros Hok Hrt.
  destruct (ErrorHandler_step w fuel url r Hok Hrt)
    as (w1 & peer & w2 & Hmark & Heff & Hsel & Hok2 & Hbs2 & Htk & Hres).
  split.
  - exists w1, peer, w2. split; [exact Hmark|]. split; [exact Heff|].
    split; [exact Hsel|]. split; [exact Hbs2|].
    destruct peer as [p|]; [exact Hres|]. now destruct Hres.
  - intros Hnd Hcnt.
    assert (H1 : URL <$> backends w1 = URL <$> backends w /\
                 (alive_count (backends w1) <= fuel)%nat).
    { destruct (first_with_url url (backends w)) as [[q b]|] eqn:Hfind.
      - apply list_find_Some in Hfind as (Hq & Hu & _). rewrite Heff. split.
        + now apply (urls_insert_same _ _ b).
        + pose proof (alive_count_insert (backends w) q b
            (mkBackend (URL b) false (int_add (FailureCount b) 1)
               (clock E (S (tick w)))) Hq) as Hins.
          cbn in Hins. destruct (Alive b); lia.
      - rewrite Heff. auto. }
    destruct H1 as [Hurls Hcnt1].
    destruct peer as [p|].
    + destruct Hres as (pb & Hpb & Hchk & Hserve). rewrite Hserve.
      destruct (String.eqb (URL pb) url); [eauto|].
      destruct (failover_chain fuel
                  (with_logs (LogRetrying (URL pb) :: logs w2) w2) (URL pb) r)
        as (resp & w' & Hrun & _).
      * exact Hok2.
      * unfold distinct_urls. cbn. rewrite Hbs2, Hurls. exact Hnd.
      * exists p, pb. cbn. rewrite Hbs2.
        split; [exact Hpb|]. split; [reflexivity|].
        now apply (checked_true_alive w1 w2).
      * cbn. now rewrite Hbs2.
      * eauto.
    + destruct Hres as (_ & Hserve). rewrite Hserve. eauto.
Qed.

End Failover.

(** ** Duplicate URLs

    [MarkBackendStatus] marks the first record with a URL, but the selector
    may hand out a later record with the same URL.  When the configuration
    lists two URLs twice each and the upstream is down, the second copies
    are never marked: a request bounces between them for as long as it is
    given fuel.  This is why the bound on the failover chain above asks for
    pairwise distinct URLs. *)

Lemma twins_selection (w : World) (x1 y1 : Backend) (c : Z) :
  backends w = [x1; y1; Sample.fresh Sample.app1; Sample.fresh Sample.app2] ->
  Alive x1 = false -> Alive y1 = false ->
  current w = c -> c = 2 \/ c = 3 ->
  exists w',
    GetNextPeer Sample.E_dead w = (Ret (Some (Z.to_nat (5 - c))), w') /\
    backends w' = backends w /\ current w' = 5 - c.
Proof.
  intros Hbs Hax Hay Hcur Hc.
  assert (Hok : pool_ok w).
  { unfold pool_ok. rewrite Hbs, Hcur. cbn. lia. }
  destruct (GetNextPeer_scan Sample.E_dead w Hok)
    as (r & w' & Hrun & Hbs' & _ & _ & Hres).
  rewrite Hbs, Hcur in Hres. cbn [length] in Hres.
  change (Z.of_nat 4) with 4 in Hres.
  assert (Hdead : forall q b, [x1; y1] !! q = Some b ->
                    ~ checked Sample.E_dead w w' b true).
  { intros q b Hq. apply checked_not_alive.
    destruct q as [|[|q]]; cbn in Hq; try discriminate; congruence. }
  assert (Hlive : forall b, b = Sample.fresh Sample.app1 \/
                            b = Sample.fresh Sample.app2 ->
                    ~ checked Sample.E_dead w w' b false).
  { intros b [-> | ->]; unfold checked; cbn; discriminate. }
  assert (Hfin : forall p : nat,
            GetNextPeer Sample.E_dead w = (Ret (Some p), w') ->
            current w' = Z.of_nat p -> Z.of_nat p = 5 - c ->
            exists w'0,
              GetNextPeer Sample.E_dead w = (Ret (Some (Z.to_nat (5 - c))), w'0) /\
              backends w'0 = backends w /\ current w'0 = 5 - c).
  { intros p Hr Hcp Hpc. exists w'. rewrite <- Hpc, Nat2Z.id.
    split; [exact Hr|]. split; [exact Hbs'|]. now rewrite Hcp. }
  destruct r as [p|].
  - destruct Hres as (k & b & Hk & Hp & Hcur' & Hb & Hchk & _ & Hprev).
    assert (Hcase : k = 0 \/ k = 1 \/ k = 2 \/ k = 3) by lia.
    destruct Hc as [-> | ->];
      destruct Hcase as [Hk0 | [Hk0 | [Hk0 | Hk0]]]; subst k;
      match type of Hp with
      | _ = ?rhs => let v := eval vm_compute in rhs in change rhs with v in Hp
      end;
      match type of Hp with
      | _ = ?v => assert (Hpv : p = Z.to_nat v) by lia; cbn in Hpv; subst p
      end;
      simpl in Hb; injection Hb as <-.
    + apply (Hfin 3%nat); [exact Hrun|exact Hcur'|reflexivity].
    + exfalso. exact (Hdead 0%nat x1 eq_refl Hchk).
    + exfalso. exact (Hdead 1%nat y1 eq_refl Hchk).
    + exfalso. destruct (Hprev 0 ltac:(lia)) as (b' & Hb' & Hc').
      simpl in Hb'. injection Hb' as <-. apply (Hlive _ (or_intror eq_refl) Hc').
    + exfalso. exact (Hdead 0%nat x1 eq_refl Hchk).
    + exfalso. exact (Hdead 1%nat y1 eq_refl Hchk).
    + apply (Hfin 2%nat); [exact Hrun|exact Hcur'|reflexivity].
    + exfalso. destruct (Hprev 2 ltac:(lia)) as (b' & Hb' & Hc').
      simpl in Hb'. injection Hb' as <-. apply (Hlive _ (or_introl eq_refl) Hc').
  - exfalso. destruct Hres as (_ & _ & Hall).
    apply (Hlive (Sample.fresh Sample.app1) (or_introl eq_refl)).
    apply (Hall 2%nat). reflexivity.
Qed.

Lemma twins_first (u : string) (x1 y1 : Backend) :
  URL x1 = Sample.app1 -> URL y1 = Sample.app2 ->
  first_with_url u [x1; y1; Sample.fresh Sample.app1; Sample.fresh Sample.app2]
  = if String.eqb u Sample.app1 then Some (0%nat, x1)
    else if String.eqb u Sample.app2 then Some (1%nat, y1) else None.
Proof.
  intros Hx Hy. unfold first_with_url. cbn.
  rewrite Hx, Hy. 
  destruct (String.eqb_spec u Sample.app1) as [->|Hne1].
  - rewrite decide_True by reflexivity. reflexivity.
  - rewrite decide_False by congruence.
    destruct (String.eqb_spec u Sample.app2) as [->|Hne2].
    + rewrite decide_True by reflexivity. reflexivity.
    + rewrite !decide_False by (cbn; congruence). reflexivity.
Qed.

Lemma twins_keep_retrying (fuel : nat) :
  forall (w : World) (u : string) (r : Request),
    Sample.twins_looping w u ->
    exists w', ReverseProxy_ServeHTTP Sample.E_dead fuel u r w = (OutOfFuel, w').
Proof.
  induction fuel as [|fuel IH]; intros w u r Hloop.
  - exists w. reflexivity.
  - destruct Hloop as (x1 & y1 & Hbs & Hx & Hy & Hax & Hay & Hu).
    assert (Hok : pool_ok w).
    { unfold pool_ok. rewrite Hbs. cbn. destruct Hu as [[_ ->]|[_ ->]]; lia. }
    destruct (ErrorHandler_step Sample.E_dead w fuel u r Hok eq_refl)
      as (w1 & peer & w2 & Hmark & Heff & Hsel & _ & Hbs2 & _ & Hres).
    destruct (MarkBackendStatus_spec Sample.E_dead u false (after_error u w))
      as (w1' & Hmark' & Hcur1 & _).
    rewrite Hmark in Hmark'. injection Hmark' as <-. cbn in Hcur1.
    rewrite Hbs, (twins_first u x1 y1 Hx Hy) in Heff.
    destruct Hu as [[-> Hc] | [-> Hc]]; cbn in Heff.
    + destruct (twins_selection w1 _ y1 2 Heff eq_refl Hay ltac:(congruence)
                  ltac:(auto)) as (w2' & Hsel' & _ & Hcur2).
      rewrite Hsel in Hsel'. injection Hsel' as -> <-.
      destruct Hres as (pb & Hpb & _ & Hserve).
      rewrite Heff in Hpb. cbn in Hpb. injection Hpb as <-.
      rewrite Hserve. cbn [URL Sample.fresh].
      change (String.eqb Sample.app2 Sample.app1) with false. cbv iota.
      apply IH. eexists _, y1. split; [cbn; rewrite Hbs2; exact Heff|].
      cbn. repeat split; auto.
    + destruct (twins_selection w1 x1 _ 3 Heff Hax eq_refl ltac:(congruence)
                  ltac:(auto)) as (w2' & Hsel' & _ & Hcur2).
      rewrite Hsel in Hsel'. injection Hsel' as -> <-.
      destruct Hres as (pb & Hpb & _ & Hserve).
      rewrite Heff in Hpb. cbn in Hpb. injection Hpb as <-.
      rewrite Hserve. cbn [URL Sample.fresh].
      change (String.eqb Sample.app1 Sample.app2) with false. cbv iota.
      apply IH. eexists x1, _. split; [cbn; rewrite Hbs2; exact Heff|].
      cbn. repeat split; auto.
Qed.

Lemma twins_first_hops (fuel : nat) (r : Request) :
  loadBalancer Sample.E_dead (S (S fuel)) r Sample.w_twins
  = ReverseProxy_ServeHTTP Sample.E_dead fuel Sample.app2 r
      Sample.w_twins_cycling.
Proof. reflexivity. Qed.

Lemma twins_request_never_answered (fuel : nat) (r : Request) :
  exists w', loadBalancer Sample.E_dead fuel r Sample.w_twins = (OutOfFuel, w').
Proof.
  destruct fuel as [|[|fuel]]; [eexists; vm_compute; reflexivity..|].
  rewrite twins_first_hops. apply twins_keep_retrying.
  eexists _, _. split; [reflexivity|]. cbn. repeat split; auto.
Qed.

(** ** The sample deployment: instances and counterexamples *)

Lemma sample_pool_ok : pool_ok Sample.w0.
Proof. unfold pool_ok. cbn. lia. Qed.

Lemma sample_all_eligible : all_eligible_from Sample.E Sample.w0.
Proof.
  intros n b _ Hb. cbn in Hb.
  repeat (apply elem_of_cons in Hb as [->|Hb]; [reflexivity|]).
  now apply elem_of_nil in Hb.
Qed.

Lemma sample_none_eligible : none_eligible_from Sample.E Sample.w_down.
Proof.
  intros n b _ Hb. cbn in Hb.
  repeat (apply elem_of_cons in Hb as [->|Hb]; [reflexivity|]).
  now apply elem_of_nil in Hb.
Qed.

Lemma sample_distinct_urls : distinct_urls Sample.w0.
Proof.
  unfold distinct_urls. cbn.
  repeat (apply NoDup_cons; split;
          [rewrite ?elem_of_cons, elem_of_nil; intros H;
           repeat (destruct H as [H|H]; [discriminate H|]); exact H|]).
  apply NoDup_nil_2.
Qed.

Lemma GetNextPeer_round_robin_witness :
  pool_ok Sample.w0 /\
  exists r w',
    GetNextPeer Sample.E Sample.w0 = (Ret r, w') /\
    backends w' = backends Sample.w0.
Proof.
  split; [exact sample_pool_ok|].
  destruct (GetNextPeer_round_robin Sample.E Sample.w0 sample_pool_ok)
    as (r & w' & Hrun & Hbs & _).
  exists r, w'. split; [exact Hrun|exact Hbs].
Defined.

Lemma ErrorHandler_failover_witness :
  pool_ok Sample.w0 /\
  roundTrip Sample.E (tick Sample.w0) Sample.app2 Sample.req = None /\
  exists resp w',
    ReverseProxy_ServeHTTP Sample.E 4 Sample.app2 Sample.req Sample.w0
      = (Ret resp, w').
Proof.
  split; [exact sample_pool_ok|]. split; [reflexivity|].
  apply (ErrorHandler_failover Sample.E Sample.w0 3 Sample.app2 Sample.req
           sample_pool_ok eq_refl).
  - exact sample_distinct_urls.
  - cbn. lia.
Defined.

Lemma cooldown_excludes_backend_witness :
  backends Sample.w_tripped !! 1%nat = Some (Sample.tripped Sample.app2) /\
  3 < FailureCount (Sample.tripped Sample.app2) /\
  exists w',
    HealthCheck Sample.E Sample.w_tripped = (Ret tt, w') /\
    backends w' !! 1%nat = Some (Sample.tripped Sample.app2).
Proof.
  split; [reflexivity|]. split; [reflexivity|].
  destruct (cooldown_excludes_backend Sample.E Sample.w_tripped 1
              (Sample.tripped Sample.app2) eq_refl eq_refl)
    as (_ & (w' & Hrun & Hkeep) & _).
  exists w'. split; [exact Hrun|]. apply Hkeep.
  vm_compute in Hrun. injection Hrun as <-.
  intros n Hn. cbn in *. unfold Second. lia.
Defined.

Lemma IsAlive_cooldown_or_flag_witness :
  backends Sample.w_tripped !! 1%nat = Some (Sample.tripped Sample.app2) /\
  exists w', IsAlive Sample.E 1 Sample.w_tripped = (Ret false, w').
Proof.
  split; [reflexivity|].
  destruct (IsAlive_cooldown_or_flag Sample.E Sample.w_tripped 1
              (Sample.tripped Sample.app2) eq_refl)
    as (r & w' & Hrun & _ & _ & _ & Hr).
  exists w'. rewrite Hrun, Hr. reflexivity.
Defined.


Lemma N_selections_visit_each_once_witness :
  pool_ok Sample.w0 /\ all_eligible_from Sample.E Sample.w0 /\
  exists w',
    selections Sample.E 3 Sample.w0
      = (Ret [Some 1%nat; Some 2%nat; Some 0%nat], w').
Proof.
  split; [exact sample_pool_ok|]. split; [exact sample_all_eligible|].
  destruct (N_selections_visit_each_once Sample.E Sample.w0
              sample_pool_ok sample_all_eligible)
    as (w' & Hrun & _).
  exists w'. exact Hrun.
Defined.

Lemma total_outage_503_witness :
  pool_ok Sample.w_down /\ none_eligible_from Sample.E Sample.w_down /\
  (exists resp w',
     loadBalancer Sample.E 0 Sample.req Sample.w_down = (Ret resp, w') /\
     StatusCode resp = 503) /\
  (exists resp w',
     healthHandler Sample.E Sample.health_req Sample.w_down = (Ret resp, w') /\
     StatusCode resp = 503).
Proof.
  assert (Hok : pool_ok Sample.w_down) by (unfold pool_ok; cbn; lia).
  split; [exact Hok|]. split; [exact sample_none_eligible|].
  destruct (total_outage_503 Sample.E Sample.w_down 0 Sample.req
              Hok sample_none_eligible)
    as [(resp & w' & Hrun & Hcode & _) _].
  destruct (total_outage_503 Sample.E Sample.w_down 0 Sample.health_req
              Hok sample_none_eligible)
    as [_ Hhealth].
  split; [exists resp, w'; split; [exact Hrun|exact Hcode]|exact Hhealth].
Defined.

Lemma status_reports_eligible_count_witness :
  pool_ok Sample.w0 /\
  exists resp sr w',
    statusHandler Sample.E Sample.req Sample.w0 = (Ret resp, w') /\
    RespBody resp = Json sr /\
    TotalBackends sr = 3.
Proof.
  split; [exact sample_pool_ok|].
  destruct (status_reports_eligible_count Sample.E Sample.w0 Sample.req
              sample_pool_ok)
    as (es & resp & sr & w' & Hrun & Hbody & _ & _ & Htotal & _).
  exists resp, sr, w'. split; [exact Hrun|]. split; [exact Hbody|exact Htotal].
Defined.

Lemma down_backend_stays_excluded_witness :
  pool_ok Sample.w_down /\
  backends Sample.w_down !! 1%nat = Some (Sample.down Sample.app2) /\
  exists rs w',
    run_ops Sample.E Sample.schedule Sample.w_down = (Ret rs, w') /\
    Some 1%nat ∉ rs.
Proof.
  assert (Hok : pool_ok Sample.w_down) by (unfold pool_ok; cbn; lia).
  split; [exact Hok|]. split; [reflexivity|].
  destruct (down_backend_stays_excluded Sample.E Sample.w_down 1
              (Sample.down Sample.app2) Sample.schedule Hok eq_refl)
    as (_ & Hrun).
  destruct Hrun as (rs & w' & b' & Hrun & Hnot & _).
  - reflexivity.
  - unfold Sample.schedule. repeat constructor; cbn; lia || discriminate.
  - exists rs, w'. split; [exact Hrun|exact Hnot].
Defined.

Lemma operational_routes_ignore_method_witness :
  (Path Sample.health_req = "/health" \/ Path Sample.health_req = "/status") /\
  mux_ServeHTTP Sample.E 0 (with_Method "DELETE" Sample.health_req) Sample.w0
    = mux_ServeHTTP Sample.E 0 (with_Method "GET" Sample.health_req) Sample.w0.
Proof.
  split; [left; reflexivity|].
  apply (operational_routes_ignore_method Sample.E Sample.w0 0
           Sample.health_req "DELETE").
  left. reflexivity.
Defined.

(** C2, counterexample.  One request to the sample pool while [app2] and
    [app3] refuse connections: the forward to [app2] fails, the retry goes
    to [app3] and fails, and a second retry reaches [app1], which answers
    200.  The request made two failover hops, not one. *)
Lemma request_fails_over_twice :
  exists resp w',
    loadBalancer Sample.E 3 Sample.req Sample.w0 = (Ret resp, w') /\
    StatusCode resp = 200 /\
    logs w' = [LogRetrying Sample.app1; LogErrorProxying Sample.app3;
               LogRetrying Sample.app3; LogErrorProxying Sample.app2;
               LogRouting Sample.app2] /\
    retries (logs w') = 2%nat /\ ~ (retries (logs w') <= 1)%nat.
Proof.
  eexists _, _. split; [vm_compute; reflexivity|].
  cbn. repeat split; lia.
Qed.


(** ** Startup *)

Section StartupFacts.

Context (E : Env).
Context (TrimSpace : string -> string).
Context (url_Parse : string -> option string).




Lemma parseBackendsFromEnv_loop_closed (parts acc : list string) :
  parseBackendsFromEnv_loop TrimSpace parts acc =
    acc ++ (with_scheme <$>
              filter (fun x => x <> "") (TrimSpace <$> parts)).
Proof.
  revert acc. induction parts as [|part rest IH]; intros acc.
  - cbn. now rewrite app_nil_r.
  - cbn [parseBackendsFromEnv_loop fmap list_fmap].
    rewrite filter_cons.
    destruct (String.eqb_spec (TrimSpace part) "") as [Heq|Hne]; cbn [negb].
    + rewrite decide_False by (intros H; apply H; exact Heq). apply IH.
    + rewrite decide_True by exact Hne. rewrite IH.
      cbn [fmap list_fmap]. now rewrite <- app_assoc.
Qed.

Lemma strings_SplitSeq_nonempty (sep : Ascii.ascii) (s : string) :
  strings_SplitSeq sep s <> [].
Proof.
  destruct s as [|c s]; cbn; [discriminate|].
  destruct (Ascii.eqb c sep); [discriminate|].
  destruct (strings_SplitSeq sep s); discriminate.
Qed.

Lemma strings_SplitSeq_length (sep : Ascii.ascii) (s : string) :
  (length (strings_SplitSeq sep s) <= S (String.length s))%nat.
Proof.
  induction s as [|c s IH]; cbn; [lia|].
  destruct (Ascii.eqb c sep); cbn; [lia|].
  destruct (strings_SplitSeq sep s); cbn in *; lia.
Qed.






Lemma bind_time_Now {B} (k : Time -> M B) (w : World) :
  bind (time_Now E) k w = k (clock E (tick w)) (with_tick (S (tick w)) w).
Proof. reflexivity. Qed.

Lemma main_wire_spec (cfg : list string) :
  forall w : World,
    exists o w',
      main_wire E url_Parse cfg w = (Ret o, w') /\
      current w' = current w /\
      match o with
      | None =>
          exists news, backends w' = backends w ++ news /\
                       Forall2 (wired url_Parse) cfg news
      | Some _ => exists c, c ∈ cfg /\ url_Parse c = None
      end.
Proof.
  induction cfg as [|c cfg IH]; intros w.
  - exists None, w. cbn. unfold ret. repeat split.
    exists []. rewrite app_nil_r. split; [reflexivity|constructor].
  - cbn [main_wire]. destruct (url_Parse c) as [u|] eqn:Hu.
    + unfold AddBackend. rewrite bind_time_Now, bind_modify.
      set (b := mkBackend u true 0 (clock E (tick w))).
      set (w1 := with_backends _ _).
      destruct (IH w1) as (o & w' & Hrun & Hcur & Hres).
      exists o, w'. split; [exact Hrun|]. split; [exact Hcur|].
      destruct o as [msg|].
      * destruct Hres as (c' & Hin & Hnone). exists c'.
        split; [now apply elem_of_cons; right|exact Hnone].
      * destruct Hres as (news & Hbs & Hall). exists (b :: news). split.
        -- rewrite Hbs. subst w1. cbn. now rewrite <- app_assoc.
        -- constructor; [|exact Hall]. subst b. unfold wired. cbn. auto.
    + eexists (Some _), w. unfold ret. split; [reflexivity|].
      repeat split. exists c. split; [apply elem_of_cons; now left|exact Hu].
Qed.

Lemma configured_backends_length (envBackends : string) :
  (length (configured_backends TrimSpace envBackends)
   <= 3 + S (String.length envBackends))%nat.
Proof.
  unfold configured_backends.
  destruct (negb (String.eqb envBackends "")).
  - pose proof (parseBackendsFromEnv_loop_closed
                  (strings_SplitSeq comma envBackends) []) as Hc.
    unfold parseBackendsFromEnv. rewrite Hc. cbn [app].
    rewrite length_fmap.
    pose proof (length_filter (fun x : string => x <> "")
                  (TrimSpace <$> strings_SplitSeq comma envBackends)) as Hf.
    rewrite length_fmap in Hf.
    pose proof (strings_SplitSeq_length comma envBackends). lia.
  - cbn. lia.
Qed.

(** X3. Startup, from the empty pool.  [main] either stops with
    [log.Fatal], which happens exactly when no backend is configured or one
    configured string does not parse as a URL, or it leaves a pool with one
    record per configured string, in order, each with the parsed URL, the
    [Alive] flag set and no failure counted; the cursor is 0, the pool is
    not empty, and the invariants of the pool hold. *)
Theorem main_init_pool (envBackends : string) (w : World) :
  backends w = [] -> current w = 0 ->
  let cfg := configured_backends TrimSpace envBackends in
  exists o w',
    main_init E TrimSpace url_Parse envBackends w = (Ret o, w') /\
    match o with
    | None =>
        cfg <> [] /\ Forall2 (wired url_Parse) cfg (backends w') /\
        current w' = 0 /\ records_ok w' /\
        (Z.of_nat (String.length envBackends) < 2 ^ 59 -> pool_ok w')
    | Some _ =>
        cfg = [] \/ exists c, c ∈ cfg /\ url_Parse c = None
    end.
Proof.
  intros Hbs Hcur cfg. unfold main_init. fold cfg.
  destruct (Z.eqb_spec (Z.of_nat (length cfg)) 0) as [Hz|Hnz].
  - eexists (Some _), w. unfold ret. split; [reflexivity|]. left.
    destruct cfg; [reflexivity|cbn in Hz; lia].
  - destruct (main_wire_spec cfg w) as (o & w' & Hrun & Hcur' & Hres).
    exists o, w'. split; [exact Hrun|]. destruct o as [msg|].
    + right. exact Hres.
    + destruct Hres as (news & Hnews & Hall). rewrite Hbs in Hnews.
      cbn in Hnews. rewrite Hnews.
      split; [intros Hnil; rewrite Hnil in Hnz; cbn in Hnz; lia|].
      split; [exact Hall|]. split; [congruence|]. split.
      * unfold records_ok. rewrite Hnews.
        clear -Hall. induction Hall as [|c b cs bs (_ & _ & Hfc) _ IH];
          constructor; [intros _; exact Hfc|exact IH].
      * intros Hlen. unfold pool_ok. rewrite Hnews, Hcur', Hcur.
        pose proof (Forall2_length _ _ _ Hall) as Hl.
        pose proof (configured_backends_length envBackends) as Hc.
        fold cfg in Hc. rewrite <- Hl.
        assert (2 ^ 59 + 4 < 2 ^ 60) by (cbn; lia). lia.
Qed.

End StartupFacts.

(** ** What the operations keep *)

Section Keeps.

Context (E : Env).

Lemma keeps_ret {A} (P : World -> Prop) (a : A) : keeps P (ret a).
Proof. intros w o w' H. injection H as <- <-. auto. Qed.

Lemma keeps_panic {A} (P : World -> Prop) (msg : string) :
  keeps P (@panic A msg).
Proof. intros w o w' H. injection H as <- <-. auto. Qed.

Lemma keeps_out_of_fuel {A} (P : World -> Prop) : keeps P (@out_of_fuel A).
Proof. intros w o w' H. injection H as <- <-. auto. Qed.

Lemma keeps_gets {A} (P : World -> Prop) (f : World -> A) : keeps P (gets f).
Proof. intros w o w' H. injection H as <- <-. auto. Qed.

Lemma keeps_bind {A B} (P : World -> Prop) (m : M A) (k : A -> M B) :
  keeps P m -> (forall a, keeps P (k a)) -> keeps P (bind m k).
Proof.
  intros Hm Hk w o w' Hrun HP. unfold bind in Hrun.
  destruct (m w) as [[a|msg|] w1] eqn:Hmw.
  - eapply Hk; [exact Hrun|]. eapply Hm; eauto.
  - injection Hrun as <- <-. eapply Hm; eauto.
  - injection Hrun as <- <-. eapply Hm; eauto.
Qed.

Lemma keeps_modify (P : World -> Prop) (f : World -> World) :
  (forall w, P w -> P (f w)) -> keeps P (modify f).
Proof. intros Hf w o w' H. injection H as <- <-. auto. Qed.

Lemma on_records_on_pool (P : World -> Prop) : on_records P -> on_pool P.
Proof. intros H w w' Hbs _. now apply H. Qed.

Section Pool.

Context (P : World -> Prop) (Hpool : on_pool P).

Lemma keeps_time_Now : keeps P (time_Now E).
Proof.
  intros w o w' H. injection H as <- <-. apply Hpool; reflexivity.
Qed.

Lemma keeps_time_Since (t : Time) : keeps P (time_Since E t).
Proof.
  unfold time_Since. apply keeps_bind; [apply keeps_time_Now|].
  intros. apply keeps_ret.
Qed.

Lemma keeps_log_Printf (e : LogEntry) : keeps P (log_Printf e).
Proof. apply keeps_modify. intros w. apply Hpool; reflexivity. Qed.

Lemma keeps_client_Get (u : string) : keeps P (client_Get E u).
Proof.
  intros w o w' H. injection H as <- <-. apply Hpool; reflexivity.
Qed.

Lemma keeps_transport_RoundTrip (u : string) (r : Request) :
  keeps P (transport_RoundTrip E u r).
Proof.
  intros w o w' H. injection H as <- <-. apply Hpool; reflexivity.
Qed.

Lemma keeps_load (p : nat) : keeps P (load p).
Proof.
  intros w o w' H. unfold load in H.
  destruct (backends w !! p); injection H as <- <-; auto.
Qed.

Lemma keeps_len_backends : keeps P len_backends.
Proof. apply keeps_gets. Qed.

Lemma keeps_index_backends (idx : Z) : keeps P (index_backends idx).
Proof.
  unfold index_backends. apply keeps_bind; [apply keeps_len_backends|].
  intros n. destruct (_ && _); [apply keeps_ret|apply keeps_panic].
Qed.

Lemma keeps_IsAlive (p : nat) : keeps P (IsAlive E p).
Proof.
  unfold IsAlive. apply keeps_bind; [apply keeps_load|]. intros b.
  destruct (3 <? FailureCount b); [|apply keeps_ret].
  apply keeps_bind; [apply keeps_time_Since|]. intros d.
  destruct (d <? 30 * Second); apply keeps_ret.
Qed.

Lemma keeps_NextIndex : keeps P NextIndex.
Proof.
  unfold NextIndex. apply keeps_bind; [apply keeps_gets|]. intros cur.
  apply keeps_bind; [apply keeps_len_backends|]. intros n.
  destruct (_ =? 0); [apply keeps_panic|apply keeps_ret].
Qed.

Lemma keeps_countHealthyBackends_loop (n : nat) :
  forall (i : nat) (count : Z), keeps P (countHealthyBackends_loop E n i count).
Proof.
  induction n as [|n IH]; intros i count; cbn; [apply keeps_ret|].
  apply keeps_bind; [apply keeps_IsAlive|]. intros alive. apply IH.
Qed.

Lemma keeps_countHealthyBackends : keeps P (countHealthyBackends E).
Proof.
  unfold countHealthyBackends. apply keeps_bind; [apply keeps_gets|].
  intros n. apply keeps_countHealthyBackends_loop.
Qed.

Lemma keeps_healthHandler (r : Request) : keeps P (healthHandler E r).
Proof.
  unfold healthHandler. apply keeps_bind; [apply keeps_countHealthyBackends|].
  intros c. destruct (c =? 0); [apply keeps_ret|].
  apply keeps_bind; [apply keeps_len_backends|]. intros. apply keeps_ret.
Qed.

Lemma keeps_statusHandler_loop (n : nat) :
  forall (i : nat) (acc : list BackendStatus),
    keeps P (statusHandler_loop E n i acc).
Proof.
  induction n as [|n IH]; intros i acc; cbn; [apply keeps_ret|].
  apply keeps_bind; [apply keeps_load|]. intros b.
  apply keeps_bind; [|intros c; apply IH].
  destruct (3 <? FailureCount b); [|apply keeps_ret].
  apply keeps_bind; [apply keeps_time_Since|]. intros. apply keeps_ret.
Qed.

Lemma keeps_statusHandler (r : Request) : keeps P (statusHandler E r).
Proof.
  unfold statusHandler. apply keeps_bind; [apply keeps_len_backends|].
  intros total. apply keeps_bind; [apply keeps_countHealthyBackends|].
  intros healthy. apply keeps_bind; [apply keeps_gets|]. intros cur.
  apply keeps_bind; [apply keeps_gets|]. intros n.
  apply keeps_bind; [apply keeps_statusHandler_loop|]. intros bss.
  cbn [HealthyBackends]. destruct (healthy =? 0); apply keeps_ret.
Qed.

Context (Hmark : mark_closed P).

Lemma keeps_SetAlive (p : nat) (alive : bool) : keeps P (SetAlive E p alive).
Proof.
  intros w o w' Hrun HP. destruct (backends w !! p) as [b|] eqn:Hb.
  - rewrite (SetAlive_run E w p b alive Hb) in Hrun. injection Hrun as <- <-.
    apply (Hpool (with_backends
                    (<[p := mkBackend (URL b) alive
                              (if alive then 0 else int_add (FailureCount b) 1)
                              (clock E (tick w))]> (backends w)) w));
      [reflexivity|reflexivity|].
    now apply Hmark.
  - unfold SetAlive, bind, load in Hrun. rewrite Hb in Hrun.
    injection Hrun as <- <-. exact HP.
Qed.

Lemma keeps_MarkBackendStatus_loop (url : string) (alive : bool) (n : nat) :
  forall i : nat, keeps P (MarkBackendStatus_loop E n i url alive).
Proof.
  induction n as [|n IH]; intros i; cbn; [apply keeps_ret|].
  apply keeps_bind; [apply keeps_load|]. intros b.
  destruct (String.eqb (URL b) url); [apply keeps_SetAlive|apply IH].
Qed.

Lemma keeps_MarkBackendStatus (url : string) (alive : bool) :
  keeps P (MarkBackendStatus E url alive).
Proof.
  unfold MarkBackendStatus. apply keeps_bind; [apply keeps_gets|].
  intros n. apply keeps_MarkBackendStatus_loop.
Qed.

Lemma keeps_HealthCheck_probe (p : nat) : keeps P (HealthCheck_probe E p).
Proof.
  unfold HealthCheck_probe. apply keeps_bind; [apply keeps_IsAlive|].
  intros status. apply keeps_bind; [apply keeps_load|]. intros b.
  apply keeps_bind; [apply keeps_client_Get|]. intros [|code].
  - apply keeps_bind; [apply keeps_log_Printf|]. intros _. apply keeps_SetAlive.
  - destruct (negb (code =? StatusOK)).
    + apply keeps_bind; [apply keeps_log_Printf|]. intros _.
      apply keeps_SetAlive.
    + apply keeps_bind; [|intros _; apply keeps_SetAlive].
      destruct (negb status); [|apply keeps_ret].
      apply keeps_bind; [apply keeps_load|]. intros b'.
      apply keeps_bind; [apply keeps_time_Since|]. intros d.
      apply keeps_log_Printf.
Qed.

Lemma keeps_HealthCheck_body (p : nat) : keeps P (HealthCheck_body E p).
Proof.
  unfold HealthCheck_body. apply keeps_bind; [apply keeps_IsAlive|].
  intros alive. apply keeps_bind; [apply keeps_load|]. intros b.
  apply keeps_bind.
  - destruct (negb alive && (3 <? FailureCount b)); [|apply keeps_ret].
    apply keeps_bind; [apply keeps_time_Since|]. intros. apply keeps_ret.
  - intros [|]; [apply keeps_log_Printf|apply keeps_HealthCheck_probe].
Qed.

Lemma keeps_for_range (body : nat -> M unit) (n : nat) :
  (forall i, keeps P (body i)) -> forall i, keeps P (for_range n i body).
Proof.
  intros Hbody. induction n as [|n IH]; intros i; cbn; [apply keeps_ret|].
  apply keeps_bind; [apply Hbody|]. intros _. apply IH.
Qed.

Lemma keeps_HealthCheck : keeps P (HealthCheck E).
Proof.
  unfold HealthCheck. apply keeps_bind; [apply keeps_gets|]. intros n.
  apply keeps_for_range. apply keeps_HealthCheck_body.
Qed.

Context (Hsel : keeps P (GetNextPeer E)).

Lemma keeps_ErrorHandler (serve : string -> Request -> M Response)
    (url : string) (r : Request) :
  (forall u r', keeps P (serve u r')) -> keeps P (ErrorHandler E serve url r).
Proof.
  intros Hserve. unfold ErrorHandler.
  apply keeps_bind; [apply keeps_log_Printf|]. intros _.
  apply keeps_bind; [apply keeps_MarkBackendStatus|]. intros _.
  apply keeps_bind; [exact Hsel|]. intros [p|].
  - apply keeps_bind; [apply keeps_load|]. intros pb.
    destruct (negb (String.eqb (URL pb) url)).
    + apply keeps_bind; [apply keeps_log_Printf|]. intros _. apply Hserve.
    + apply keeps_bind; [apply keeps_log_Printf|]. intros _. apply keeps_ret.
  - apply keeps_bind; [apply keeps_log_Printf|]. intros _. apply keeps_ret.
Qed.

Lemma keeps_ReverseProxy_ServeHTTP (fuel : nat) :
  forall (url : string) (r : Request),
    keeps P (ReverseProxy_ServeHTTP E fuel url r).
Proof.
  induction fuel as [|fuel IH]; intros url r; cbn [ReverseProxy_ServeHTTP];
    [apply keeps_out_of_fuel|].
  apply keeps_bind; [apply keeps_transport_RoundTrip|]. intros [resp|].
  - apply keeps_ret.
  - apply keeps_ErrorHandler. exact IH.
Qed.

Lemma keeps_loadBalancer (fuel : nat) (r : Request) :
  keeps P (loadBalancer E fuel r).
Proof.
  unfold loadBalancer. apply keeps_bind; [exact Hsel|]. intros [p|].
  - apply keeps_bind; [apply keeps_load|]. intros pb.
    apply keeps_bind; [apply keeps_log_Printf|]. intros _.
    apply keeps_ReverseProxy_ServeHTTP.
  - apply keeps_bind; [apply keeps_log_Printf|]. intros _. apply keeps_ret.
Qed.

Lemma keeps_mux_ServeHTTP (fuel : nat) (r : Request) :
  keeps P (mux_ServeHTTP E fuel r).
Proof.
  unfold mux_ServeHTTP.
  destruct (String.eqb (Path r) "/health"); [apply keeps_healthHandler|].
  destruct (String.eqb (Path r) "/status"); [apply keeps_statusHandler|].
  apply keeps_loadBalancer.
Qed.

End Pool.

Lemma keeps_GetNextPeer_loop (P : World -> Prop) (fuel : nat) :
  on_records P -> forall i l : Z, keeps P (GetNextPeer_loop E fuel i l).
Proof.
  intros HP. pose proof (on_records_on_pool P HP) as Hpool.
  induction fuel as [|fuel IH]; intros i l; cbn [GetNextPeer_loop];
    [apply keeps_out_of_fuel|].
  destruct (i <? l); [|apply keeps_ret].
  apply keeps_bind; [now apply keeps_len_backends|]. intros n.
  destruct (n =? 0); [apply keeps_panic|].
  apply keeps_bind; [now apply keeps_index_backends|]. intros p.
  apply keeps_bind; [now apply keeps_IsAlive|]. intros [|]; [|apply IH].
  apply keeps_bind; [|intros; apply keeps_ret].
  apply keeps_modify. intros w. apply HP. reflexivity.
Qed.

Lemma keeps_GetNextPeer (P : World -> Prop) :
  on_records P -> keeps P (GetNextPeer E).
Proof.
  intros HP. pose proof (on_records_on_pool P HP) as Hpool.
  unfold GetNextPeer. apply keeps_bind; [now apply keeps_NextIndex|].
  intros next. apply keeps_bind; [now apply keeps_len_backends|].
  intros n. now apply keeps_GetNextPeer_loop.
Qed.

Lemma keeps_pool_ok_GetNextPeer : keeps pool_ok (GetNextPeer E).
Proof.
  intros w o w' Hrun Hok.
  destruct (GetNextPeer_scan E w Hok) as (r & w0 & Hrun0 & _).
  rewrite Hrun0 in Hrun. injection Hrun as <- <-.
  exact (GetNextPeer_pool_ok E w w0 r Hok Hrun0).
Qed.

Lemma records_ok_on_records : on_records records_ok.
Proof. intros w w' Hbs. unfold records_ok. now rewrite Hbs. Qed.

Lemma records_ok_mark_closed : mark_closed records_ok.
Proof.
  intros w p b alive now Hb Hok. unfold records_ok in *. cbn.
  apply Forall_insert; [exact Hok|].
  unfold record_ok. cbn. now destruct alive.
Qed.

Lemma urls_on_records (us : list string) :
  on_records (fun w => URL <$> backends w = us).
Proof. intros w w' Hbs. now rewrite Hbs. Qed.

Lemma urls_mark_closed (us : list string) :
  mark_closed (fun w => URL <$> backends w = us).
Proof.
  intros w p b alive now Hb Hus. cbn.
  now rewrite (urls_insert_same (backends w) p b).
Qed.

Lemma pool_ok_on_pool : on_pool pool_ok.
Proof. intros w w' Hbs Hcur. unfold pool_ok. now rewrite Hbs, Hcur. Qed.

Lemma pool_ok_mark_closed : mark_closed pool_ok.
Proof.
  intros w p b alive now Hb Hok. unfold pool_ok in *. cbn.
  now rewrite length_insert.
Qed.

(** X4. Every record keeps the link between its two health fields: when
    the [Alive] flag is set the failure counter is 0.  No operation of the
    program breaks it, whatever the clock, the probes and the upstream do
    and however the operation ends: [SetAlive], [MarkBackendStatus],
    [GetNextPeer], a health sweep, and the handling of a request on any
    route. *)
Theorem records_ok_invariant :
  (forall p alive, keeps records_ok (SetAlive E p alive)) /\
  (forall url alive, keeps records_ok (MarkBackendStatus E url alive)) /\
  keeps records_ok (GetNextPeer E) /\
  keeps records_ok (HealthCheck E) /\
  (forall fuel r, keeps records_ok (mux_ServeHTTP E fuel r)).
Proof.
  pose proof (on_records_on_pool _ records_ok_on_records) as Hpool.
  pose proof records_ok_mark_closed as Hmark.
  pose proof (keeps_GetNextPeer _ records_ok_on_records) as Hsel.
  split; [intros; now apply keeps_SetAlive|].
  split; [intros; now apply keeps_MarkBackendStatus|].
  split; [exact Hsel|].
  split; [now apply keeps_HealthCheck|].
  intros. now apply keeps_mux_ServeHTTP.
Qed.

(** X5. The identity of the pool is fixed: the list of backend URLs, and
    with it the number and order of the records, is the same after any
    operation as before it. *)
Theorem pool_identity_invariant (us : list string) :
  let same := fun w => URL <$> backends w = us in
  (forall p alive, keeps same (SetAlive E p alive)) /\
  (forall url alive, keeps same (MarkBackendStatus E url alive)) /\
  keeps same (GetNextPeer E) /\
  keeps same (HealthCheck E) /\
  (forall fuel r, keeps same (mux_ServeHTTP E fuel r)).
Proof.
  intros same.
  pose proof (on_records_on_pool _ (urls_on_records us)) as Hpool.
  pose proof (urls_mark_closed us) as Hmark.
  pose proof (keeps_GetNextPeer _ (urls_on_records us)) as Hsel.
  split; [intros; now apply keeps_SetAlive|].
  split; [intros; now apply keeps_MarkBackendStatus|].
  split; [exact Hsel|].
  split; [now apply keeps_HealthCheck|].
  intros. now apply keeps_mux_ServeHTTP.
Qed.

(** X6. The pool invariant (a non-empty pool and a cursor that is a valid
    index) is kept by a health sweep and by the handling of a request on any
    route, however they end. *)
Theorem pool_ok_invariant :
  keeps pool_ok (HealthCheck E) /\
  (forall fuel r, keeps pool_ok (mux_ServeHTTP E fuel r)) /\
  (forall url alive, keeps pool_ok (MarkBackendStatus E url alive)).
Proof.
  pose proof pool_ok_on_pool as Hpool.
  pose proof pool_ok_mark_closed as Hmark.
  pose proof keeps_pool_ok_GetNextPeer as Hsel.
  split; [now apply keeps_HealthCheck|].
  split; [intros; now apply keeps_mux_ServeHTTP|].
  intros. now apply keeps_MarkBackendStatus.
Qed.

(** X7. The two operational routes only read: after [/health] or [/status]
    the records and the cursor are what they were, on any pool (also an
    empty one).  A health sweep writes records but never moves the
    cursor, and neither does [MarkBackendStatus]. *)
Theorem operational_routes_read_only (w : World) :
  let unchanged := fun w' => backends w' = backends w /\ current w' = current w in
  (forall r, keeps unchanged (healthHandler E r)) /\
  (forall r, keeps unchanged (statusHandler E r)) /\
  keeps (fun w' => current w' = current w) (HealthCheck E) /\
  (forall url alive,
     keeps (fun w' => current w' = current w) (MarkBackendStatus E url alive)).
Proof.
  intros unchanged.
  assert (Hu : on_pool unchanged).
  { intros w1 w2 Hbs Hcur [H1 H2]. unfold unchanged. split; congruence. }
  assert (Hc : on_pool (fun w' => current w' = current w)).
  { intros w1 w2 _ Hcur H. congruence. }
  assert (Hm : mark_closed (fun w' => current w' = current w)).
  { intros w1 p b alive now _ H. exact H. }
  split; [intros; now apply keeps_healthHandler|].
  split; [intros; now apply keeps_statusHandler|].
  split; [now apply keeps_HealthCheck|].
  intros. now apply keeps_MarkBackendStatus.
Qed.

End Keeps.

(** ** Eligibility on records that satisfy the invariant *)

Section Flags.

Context (E : Env).

Lemma record_ok_isEligible (b : Backend) (t : Time) :
  record_ok b -> isEligible b t = Alive b.
Proof.
  intros Hok. destruct (Alive b) eqn:Ha.
  - unfold isEligible, in_cooldown. rewrite Ha, (Hok Ha). reflexivity.
  - now apply isEligible_not_alive.
Qed.

Lemma record_ok_checked (w w' : World) (b : Backend) (e : bool) :
  record_ok b -> checked E w w' b e -> e = Alive b.
Proof.
  intros Hok Hchk. apply (checked_const E w w' b (Alive b) e); [|exact Hchk].
  intros n _. now apply record_ok_isEligible.
Qed.

Lemma records_ok_lookup (w : World) (p : nat) (b : Backend) :
  records_ok w -> backends w !! p = Some b -> record_ok b.
Proof.
  intros Hok Hb. unfold records_ok in Hok.
  rewrite Forall_forall in Hok. apply Hok.
  eapply list_elem_of_lookup_2; exact Hb.
Qed.

Lemma count_true_flags (w w' : World) (bs : list Backend) (es : list bool) :
  Forall record_ok bs -> Forall2 (checked E w w') bs es ->
  count_true es = Z.of_nat (alive_count bs).
Proof.
  intros Hok Hall. induction Hall as [|b e bs es Hc Hall IH];
    [reflexivity|].
  apply Forall_cons in Hok as [Hb Hbs].
  cbn [count_true alive_count]. rewrite (IH Hbs).
  rewrite (record_ok_checked w w' b e Hb Hc). destruct (Alive b); lia.
Qed.

Lemma alive_count_le_length (bs : list Backend) :
  (alive_count bs <= length bs)%nat.
Proof. induction bs as [|b bs IH]; cbn; [lia|]. destruct (Alive b); lia. Qed.

(** X8. On a pool whose records satisfy the invariant (a set flag comes with
    a zero counter), the cooldown window never changes an answer: whatever
    the clock reads, [IsAlive] returns the [Alive] flag of the record, and
    [countHealthyBackends] returns the number of flags that are set. *)
Theorem eligibility_is_the_flag (w : World) :
  records_ok w ->
  (forall p b, backends w !! p = Some b ->
     (forall t, isEligible b t = Alive b) /\
     exists w', IsAlive E p w = (Ret (Alive b), w') /\ observes_only w w') /\
  (Z.of_nat (length (backends w)) < 2 ^ 60 ->
   exists w',
     countHealthyBackends E w
       = (Ret (Z.of_nat (alive_count (backends w))), w') /\
     observes_only w w').
Proof.
  intros Hok. split.
  - intros p b Hb. pose proof (records_ok_lookup w p b Hok Hb) as Hrec.
    split; [intros t; now apply record_ok_isEligible|].
    destruct (IsAlive_checked E w p b Hb) as (w' & Hrun & Hobs & _).
    rewrite (record_ok_isEligible b _ Hrec) in Hrun. eauto.
  - intros Hfit.
    destruct (countHealthyBackends_spec E w Hfit) as (es & w' & Hrun & Hobs & Hall).
    exists w'. split; [|exact Hobs].
    now rewrite Hrun, (count_true_flags w w' (backends w) es Hok Hall).
Qed.

Lemma statusHandler_loop_entries (n : nat) :
  forall (i : nat) (acc : list BackendStatus) (w : World),
    (i + n)%nat = length (backends w) ->
    exists entries w',
      statusHandler_loop E n i acc w = (Ret (acc ++ entries), w') /\
      observes_only w w' /\
      Forall2 (reports E w w') (drop i (backends w)) entries.
Proof.
  induction n as [|n IH]; intros i acc w Hlen.
  - exists [], w. cbn. unfold ret, observes_only. rewrite app_nil_r.
    split; [reflexivity|]. split; [repeat split; lia|].
    rewrite drop_ge by lia. constructor.
  - destruct (lookup_lt_is_Some_2 (backends w) i ltac:(lia)) as [b Hb].
    cbn [statusHandler_loop]. rewrite (bind_load i b) by exact Hb.
    assert (Hk : forall (c : bool) (w1 : World),
              observes_only w w1 ->
              checked E w w1 b (if c then false else Alive b) ->
              exists entries w',
                statusHandler_loop E n (S i)
                  (acc ++ [if c
                           then mkBackendStatus (URL b) false (FailureCount b)
                                  (LastCheck b)
                           else mkBackendStatus (URL b) (Alive b)
                                  (FailureCount b) (LastCheck b)]) w1
                  = (Ret (acc ++ entries), w') /\
                observes_only w w' /\
                Forall2 (reports E w w') (drop i (backends w)) entries).
    { intros c w1 (Hbs1 & Hcur1 & Hlogs1 & Hle1) Hchk.
      destruct (IH (S i) (acc ++
                   [if c then mkBackendStatus (URL b) false (FailureCount b)
                                 (LastCheck b)
                    else mkBackendStatus (URL b) (Alive b) (FailureCount b)
                                 (LastCheck b)]) w1)
        as (entries & w' & Hrun & (Hbs & Hcur & Hlogs & Hle) & Hall).
      { rewrite Hbs1. lia. }
      eexists (_ :: entries), w'. split.
      { rewrite Hrun. now rewrite <- app_assoc. }
      split; [unfold observes_only; repeat split; try congruence; lia|].
      rewrite (drop_S _ _ _ Hb). constructor.
      - unfold reports. destruct c; cbn; repeat split;
          (eapply checked_widen; [| |exact Hchk]; lia).
      - rewrite Hbs1 in Hall. eapply Forall2_impl; [exact Hall|].
        intros b' s' (H1 & H2 & H3 & H4). unfold reports.
        repeat split; try assumption.
        eapply checked_widen; [| |exact H4]; lia. }
    destruct (Z.ltb_spec 3 (FailureCount b)) as [Hfc|Hfc].
    + rewrite bind_assoc, bind_time_Since, bind_ret. rewrite Sub_ltb_30s.
      apply (Hk (clock E (tick w) - LastCheck b <? 30 * Second));
        [unfold observes_only; cbn; repeat split; lia|].
      unfold checked. destruct (Z.ltb_spec 3 (FailureCount b)); [|lia].
      exists (tick w). split; [cbn; lia|].
      unfold isEligible, in_cooldown.
      destruct (Z.ltb_spec 3 (FailureCount b)); [|lia]. reflexivity.
    + rewrite bind_ret.
      apply (Hk false); [unfold observes_only; repeat split; lia|].
      unfold checked. destruct (Z.ltb_spec 3 (FailureCount b)); [lia|].
      reflexivity.
Qed.

(** X9. The [/status] answer is a JSON document that lists the records of
    the pool in order: each entry carries the URL, the failure counter and
    [LastCheck] of its record, and as [alive] the answer of an eligibility
    check made while the list is built; [total_backends] is the number of
    records and [current_index] the cursor. *)
Theorem status_lists_the_pool (w : World) (r : Request) :
  pool_ok w ->
  exists (resp : Response) (sr : StatusResponse) (w' : World),
    statusHandler E r w = (Ret resp, w') /\
    RespBody resp = Json sr /\
    ContentType resp = Some "application/json" /\
    Forall2 (reports E w w') (backends w) (Backends sr) /\
    TotalBackends sr = Z.of_nat (length (backends w)) /\
    CurrentIndex sr = current w.
Proof.
  intros [HN Hc].
  destruct (countHealthyBackends_spec E w ltac:(lia))
    as (es & w1 & Hrun1 & (Hbs1 & Hcur1 & Hlogs1 & Hle1) & _).
  destruct (statusHandler_loop_entries (length (backends w1)) 0 [] w1 eq_refl)
    as (entries & w' & Hrun & (Hbs & Hcur & Hlogs & Hle) & Hall).
  cbn [app drop] in Hrun, Hall. rewrite Hbs1 in Hall.
  assert (Hall' : Forall2 (reports E w w') (backends w) entries).
  { eapply Forall2_impl; [exact Hall|].
    intros b s (H1 & H2 & H3 & H4). unfold reports.
    repeat split; try assumption.
    eapply checked_widen; [| |exact H4]; lia. }
  assert (Hidx : int_of_uint64 (current w1) = current w).
  { rewrite Hcur1. unfold int_of_uint64. apply int_wrap_id.
    unfold in_int, int_min, int_max. lia. }
  unfold statusHandler, len_backends. rewrite bind_gets.
  rewrite (bind_run _ _ _ _ _ Hrun1). rewrite !bind_gets.
  rewrite (bind_run _ _ _ _ _ Hrun). cbn [HealthyBackends].
  destruct (count_true es =? 0).
  - eexists _, _, w'. split; [reflexivity|]. cbn. auto.
  - eexists _, _, w'. split; [reflexivity|]. cbn. auto.
Qed.

Lemma reports_snapshot (w w' : World) (bs : list Backend)
    (entries : list BackendStatus) :
  Forall record_ok bs -> Forall2 (reports E w w') bs entries ->
  entries = snapshot <$> bs.
Proof.
  intros Hok Hall. induction Hall as [|b s bs ss (H1 & H2 & H3 & H4) _ IH];
    [reflexivity|].
  apply Forall_cons in Hok as [Hb Hbs]. cbn [fmap list_fmap].
  rewrite <- (IH Hbs). f_equal.
  apply (record_ok_checked w w' b _ Hb) in H4.
  destruct s. cbn in *. unfold snapshot. congruence.
Qed.

(** X10. On records that satisfy the invariant the [/status] document
    shows the pool as it is: every entry is its record with the [Alive]
    flag unaltered, [healthy_backends] is the number of flags set (so it
    agrees with the entries), the status is ["degraded"] with code 503 when
    that number is 0 and ["operational"] with code 200 otherwise. *)
Theorem status_shows_the_flags (w : World) (r : Request) :
  pool_ok w -> records_ok w ->
  let a := Z.of_nat (alive_count (backends w)) in
  exists w',
    statusHandler E r w =
      (Ret (mkResponse
              (if a =? 0 then StatusServiceUnavailable else StatusOK)
              (Some "application/json")
              (Json (mkStatusResponse
                       (if a =? 0 then "degraded" else "operational")
                       (Z.of_nat (length (backends w))) a (current w)
                       (snapshot <$> backends w)))), w') /\
    observes_only w w'.
Proof.
  intros [HN Hc] Hrec a.
  destruct (countHealthyBackends_spec E w ltac:(lia))
    as (es & w1 & Hrun1 & (Hbs1 & Hcur1 & Hlogs1 & Hle1) & Hes).
  rewrite (count_true_flags w w1 (backends w) es Hrec Hes) in Hrun1. fold a in Hrun1.
  destruct (statusHandler_loop_entries (length (backends w1)) 0 [] w1 eq_refl)
    as (entries & w' & Hrun & (Hbs & Hcur & Hlogs & Hle) & Hall).
  cbn [app drop] in Hrun, Hall.
  assert (Hentries : entries = snapshot <$> backends w).
  { rewrite <- Hbs1. apply (reports_snapshot w1 w'); [|exact Hall].
    unfold records_ok in Hrec. now rewrite Hbs1. }
  assert (Hidx : int_of_uint64 (current w1) = current w).
  { rewrite Hcur1. unfold int_of_uint64. apply int_wrap_id.
    unfold in_int, int_min, int_max. lia. }
  exists w'. split.
  - unfold statusHandler, len_backends. rewrite bind_gets.
    rewrite (bind_run _ _ _ _ _ Hrun1). rewrite !bind_gets.
    rewrite (bind_run _ _ _ _ _ Hrun). cbn [HealthyBackends].
    rewrite Hidx, Hentries.
    destruct (a =? 0); reflexivity.
  - unfold observes_only. repeat split; try congruence. lia.
Qed.

(** X11. On records that satisfy the invariant [/health] answers 503 with
    the text [UNHEALTHY: No healthy backends available] when no [Alive]
    flag is set, and otherwise 200 with [HEALTHY: X/Y backends available],
    where X is the number of flags set and Y the number of records, both
    in decimal. *)
Theorem health_counts_the_flags (w : World) (r : Request) :
  records_ok w -> Z.of_nat (length (backends w)) < 2 ^ 60 ->
  let a := Z.of_nat (alive_count (backends w)) in
  exists w',
    healthHandler E r w =
      (Ret (if a =? 0
            then mkResponse StatusServiceUnavailable None
                   (Text "UNHEALTHY: No healthy backends available")
            else mkResponse StatusOK None
                   (Text (String.append "HEALTHY: "
                            (String.append (fmt_d a)
                               (String.append "/"
                                  (String.append
                                     (fmt_d (Z.of_nat (length (backends w))))
                                     " backends available")))))), w') /\
    observes_only w w'.
Proof.
  intros Hrec Hfit a.
  destruct (countHealthyBackends_spec E w Hfit)
    as (es & w1 & Hrun1 & Hobs & Hes).
  rewrite (count_true_flags w w1 (backends w) es Hrec Hes) in Hrun1. fold a in Hrun1.
  exists w1. split; [|exact Hobs].
  unfold healthHandler. rewrite (bind_run _ _ _ _ _ Hrun1).
  destruct (a =? 0); [reflexivity|].
  unfold len_backends. rewrite bind_gets.
  destruct Hobs as (Hbs & _). now rewrite Hbs.
Qed.

End Flags.

(** ** Probing *)

Section Probing.

Context (E : Env).

(** The probe step of a turn, started with the clock counter at [tick w]:
    [k] is the number of clock readings the first [IsAlive] makes. *)
Lemma HealthCheck_probe_marks (w : World) (p : nat) (b : Backend) :
  backends w !! p = Some b ->
  let n := if 3 <? FailureCount b then S (tick w) else tick w in
  let ok := is200 (probe E n (String.append (URL b) "/health")) in
  let status := isEligible b (clock E (tick w)) in
  let t := if ok && negb status then S (S n) else S n in
  exists w',
    HealthCheck_probe E p w = (Ret tt, w') /\
    backends w' = <[p := marked b ok (clock E t)]> (backends w) /\
    current w' = current w /\ tick w' = S t.
Proof.
  intros Hb n ok status t. unfold HealthCheck_probe.
  rewrite (bind_IsAlive E _ _ _ _ Hb). fold status.
  set (w1 := if 3 <? FailureCount b then with_tick (S (tick w)) w else w).
  assert (Hw1 : backends w1 = backends w /\ current w1 = current w /\
                tick w1 = n).
  { subst w1 n. destruct (3 <? FailureCount b); cbn; auto. }
  destruct Hw1 as (Hbs1 & Hc1 & Ht1).
  assert (Hb1 : backends w1 !! p = Some b) by (now rewrite Hbs1).
  rewrite (bind_load p b) by exact Hb1. rewrite bind_client_Get.
  rewrite Ht1. fold ok.
  set (w2 := with_tick (S (tick w1)) w1).
  assert (Hb2 : backends w2 !! p = Some b) by exact Hb1.
  assert (Hfin : forall (alive : bool) (w3 : World) (m : nat),
            backends w3 = backends w -> current w3 = current w ->
            tick w3 = m ->
            exists w', SetAlive E p alive w3 = (Ret tt, w') /\
              backends w' = <[p := marked b alive (clock E m)]> (backends w) /\
              current w' = current w /\ tick w' = S m).
  { intros alive w3 m Hbs3 Hc3 Ht3.
    rewrite (SetAlive_run E w3 p b alive) by (now rewrite Hbs3).
    eexists. split; [reflexivity|]. cbn. rewrite Hbs3, Ht3. auto. }
  unfold is200 in ok.
  destruct (probe E n (String.append (URL b) "/health")) as [|code] eqn:Hres.
  - rewrite bind_log_Printf. subst ok t. cbn [andb].
    apply Hfin; subst w2; cbn; auto.
  - destruct (code =? StatusOK) eqn:Hcode; subst ok t; cbn [negb andb].
    + destruct status; cbn [negb].
      * rewrite bind_ret. apply Hfin; subst w2; cbn; auto.
      * rewrite !bind_assoc. rewrite (bind_load p b) by exact Hb2.
        rewrite bind_assoc, bind_time_Since, bind_log_Printf.
        apply Hfin; subst w2; cbn; auto.
    + rewrite bind_log_Printf. apply Hfin; subst w2; cbn; auto.
Qed.

(** X12. A turn of the health sweep on a record whose failure counter is at
    most 3 always probes it (one [GET <url>/health]), and the probe alone
    decides: an answer with code 200 sets the flag and resets the counter;
    an error or any other code clears the flag and adds one to the counter.
    [LastCheck] is stamped either way, no other record changes and the
    cursor stays where it was. *)
Theorem probe_decides_the_mark (w : World) (p : nat) (b : Backend) :
  backends w !! p = Some b -> FailureCount b <= 3 ->
  let ok := is200 (probe E (tick w) (String.append (URL b) "/health")) in
  let t := if ok && negb (Alive b) then S (S (tick w)) else S (tick w) in
  exists w',
    HealthCheck_body E p w = (Ret tt, w') /\
    backends w' = <[p := marked b ok (clock E t)]> (backends w) /\
    current w' = current w.
Proof.
  intros Hb Hfc ok t. unfold HealthCheck_body.
  rewrite (bind_IsAlive E _ _ _ _ Hb).
  pose proof (HealthCheck_probe_marks w p b Hb) as Hprobe.
  cbv zeta in Hprobe.
  rewrite (isEligible_below_threshold b _ Hfc) in *.
  destruct (Z.ltb_spec 3 (FailureCount b)); [lia|].
  rewrite (bind_load p b) by exact Hb.
  destruct (Z.ltb_spec 3 (FailureCount b)); [lia|].
  rewrite andb_false_r, bind_ret.
  destruct Hprobe as (w' & Hrun & Hbs & Hcur & _).
  exists w'. split; [exact Hrun|]. split; [exact Hbs|exact Hcur].
Qed.

(** X13. The breaker is half-open after its window: a turn of the sweep on
    a record that is down with more than 3 failures, taken when 30 seconds
    or more have passed since its [LastCheck], probes the backend again,
    and an answer with code 200 brings it back with the flag set and the
    counter at 0; any other outcome leaves it down with one more failure
    and a new [LastCheck], which starts a new window. *)
Theorem tripped_backend_is_probed_again (w : World) (p : nat) (b : Backend) :
  backends w !! p = Some b -> 3 < FailureCount b -> Alive b = false ->
  30 * Second <= clock E (S (tick w)) - LastCheck b ->
  let ok := is200 (probe E (3 + tick w) (String.append (URL b) "/health")) in
  let t := if ok then (5 + tick w)%nat else (4 + tick w)%nat in
  exists w',
    HealthCheck_body E p w = (Ret tt, w') /\
    backends w' = <[p := marked b ok (clock E t)]> (backends w) /\
    current w' = current w.
Proof.
  intros Hb Hfc Ha Hexp ok t. unfold HealthCheck_body.
  rewrite (bind_IsAlive E _ _ _ _ Hb).
  rewrite (isEligible_not_alive b _ Ha).
  destruct (Z.ltb_spec 3 (FailureCount b)); [|lia].
  rewrite (bind_load p b) by exact Hb.
  destruct (Z.ltb_spec 3 (FailureCount b)); [|lia]. cbn [negb andb].
  rewrite bind_assoc, bind_time_Since, bind_ret. cbn [tick with_tick].
  rewrite Sub_ltb_30s.
  destruct (Z.ltb_spec (clock E (S (tick w)) - LastCheck b) (30 * Second));
    [lia|].
  set (w2 := with_tick (S (S (tick w))) (with_tick (S (tick w)) w)).
  destruct (HealthCheck_probe_marks w2 p b Hb) as (w' & Hrun & Hbs & Hcur & _).
  cbv zeta in Hbs.
  rewrite (isEligible_not_alive b _ Ha) in Hbs.
  destruct (Z.ltb_spec 3 (FailureCount b)); [|lia].
  change (tick w2) with (S (S (tick w))) in Hbs.
  exists w'. split; [exact Hrun|]. split; [|exact Hcur].
  rewrite Hbs. subst ok t. cbn [negb]. rewrite andb_true_r.
  change (3 + tick w)%nat with (S (S (S (tick w)))).
  destruct (is200 _); reflexivity.
Qed.




End Probing.

(** ** Serving a request *)

Section Serving.

Context (E : Env).

(** X15. When the forward to the selected backend succeeds, the client gets
    the upstream's response as it is; no record changes, the cursor is the
    index of the backend that served, and the only trace is the routing
    line in the log. *)
Theorem served_without_failover
    (w w1 : World) (fuel p : nat) (pb : Backend) (r : Request)
    (resp : Response) :
  pool_ok w ->
  GetNextPeer E w = (Ret (Some p), w1) ->
  backends w !! p = Some pb ->
  roundTrip E (tick w1) (URL pb) r = Some resp ->
  exists w',
    loadBalancer E (S fuel) r w = (Ret resp, w') /\
    backends w' = backends w /\ current w' = Z.of_nat p /\
    logs w' = LogRouting (URL pb) :: logs w.
Proof.
  intros Hok Hsel Hpb Hrt.
  destruct (GetNextPeer_scan E w Hok) as (r0 & w0 & Hrun0 & Hbs & Hlogs & _ & Hres).
  rewrite Hsel in Hrun0. injection Hrun0 as <- <-.
  destruct Hres as (k & b & _ & _ & Hcur & _).
  unfold loadBalancer. rewrite (bind_run _ _ _ _ _ Hsel).
  rewrite (bind_load p pb) by (now rewrite Hbs).
  rewrite bind_log_Printf.
  rewrite (ServeHTTP_forwarded E _ fuel (URL pb) r resp) by exact Hrt.
  eexists. split; [reflexivity|]. cbn. rewrite Hbs, Hcur, Hlogs. auto.
Qed.

Lemma alive_count_zero (bs : list Backend) :
  (forall q b, bs !! q = Some b -> Alive b = false) -> alive_count bs = 0%nat.
Proof.
  induction bs as [|b bs IH]; intros Hall; [reflexivity|].
  cbn [alive_count]. rewrite (Hall 0%nat b eq_refl).
  rewrite IH; [reflexivity|]. intros q b' Hq. exact (Hall (S q) b' Hq).
Qed.

Lemma none_checked_alive_count (w w' : World) :
  records_ok w ->
  (forall q b, backends w !! q = Some b -> checked E w w' b false) ->
  alive_count (backends w) = 0%nat.
Proof.
  intros Hrec Hall. apply alive_count_zero. intros q b Hb.
  symmetry. apply (record_ok_checked E w w' b false);
    [now apply (records_ok_lookup w q)|now apply (Hall q)].
Qed.

Lemma failover_chain_outcome (fuel : nat) :
  forall (w : World) (url : string) (r : Request),
    pool_ok w -> distinct_urls w -> records_ok w ->
    (exists q b, backends w !! q = Some b /\ URL b = url /\ Alive b = true) ->
    (alive_count (backends w) <= fuel)%nat ->
    exists resp w',
      ReverseProxy_ServeHTTP E fuel url r w = (Ret resp, w') /\
      answered E r resp w' /\
      (retries (logs w') + alive_count (backends w')
       < retries (logs w) + alive_count (backends w) + 1)%nat.
Proof.
  induction fuel as [|fuel IH];
    intros w url r Hok Hnd Hrec (q0 & b0 & Hq0 & Hu0 & Ha0) Hcnt.
  - pose proof (alive_count_pos _ _ _ Hq0 Ha0). lia.
  - destruct (roundTrip E (tick w) url r) as [resp|] eqn:Hrt.
    + rewrite (ServeHTTP_forwarded E w fuel url r resp Hrt).
      eexists _, _. split; [reflexivity|]. cbn.
      split; [left; eauto|lia].
    + destruct (ErrorHandler_step E w fuel url r Hok Hrt)
        as (w1 & peer & w2 & Hmark & Heff & Hsel & Hok2 & Hbs2 & Htk & Hres).
      destruct (MarkBackendStatus_spec E url false (after_error url w))
        as (w1' & Hmark' & Hcur1 & Hlogs1 & Hlen1 & _).
      rewrite Hmark in Hmark'. injection Hmark' as <-.
      assert (Hok1 : pool_ok w1).
      { unfold pool_ok. rewrite Hlen1, Hcur1. exact Hok. }
      destruct (GetNextPeer_scan E w1 Hok1)
        as (peer' & w2' & Hsel' & _ & Hlogs2 & _).
      rewrite Hsel in Hsel'. injection Hsel' as <- <-.
      assert (Hfind : first_with_url url (backends w) = Some (q0, b0)).
      { apply list_find_Some. split; [exact Hq0|]. split; [exact Hu0|].
        intros j y Hj Hlt Hy.
        assert (j = q0) by (eapply distinct_urls_index; eauto; congruence).
        lia. }
      rewrite Hfind in Heff.
      set (b1 := mkBackend (URL b0) false (int_add (FailureCount b0) 1)
                   (clock E (S (tick w)))) in Heff.
      assert (Hurls : URL <$> backends w1 = URL <$> backends w).
      { rewrite Heff. now apply (urls_insert_same _ _ b0). }
      assert (Hcnt1 : (alive_count (backends w1) + 1
                       = alive_count (backends w))%nat).
      { pose proof (alive_count_insert (backends w) q0 b0 b1 Hq0) as Hins.
        rewrite <- Heff, Ha0 in Hins. cbn in Hins. lia. }
      assert (Hrec1 : records_ok w1).
      { unfold records_ok. rewrite Heff.
        apply Forall_insert; [exact Hrec|]. intros Hf. discriminate Hf. }
      assert (Hq1 : backends w1 !! q0 = Some b1).
      { rewrite Heff. apply list_lookup_insert_eq.
        now apply lookup_lt_Some in Hq0. }
      assert (Hlogs : retries (logs w2) = retries (logs w)).
      { rewrite Hlogs2, Hlogs1. reflexivity. }
      destruct peer as [p|].
      * destruct Hres as (pb & Hpb & Hchk & Hserve).
        pose proof (checked_true_alive E _ _ _ Hchk) as Hapb.
        assert (Hne : URL pb <> url).
        { intros Heq.
          assert (p = q0).
          { eapply (distinct_urls_index (backends w1)); eauto.
            - unfold distinct_urls in Hnd. now rewrite Hurls.
            - subst b1. cbn. congruence. }
          subst p. assert (pb = b1) by congruence. subst pb. discriminate. }
        rewrite Hserve. destruct (String.eqb_spec (URL pb) url); [contradiction|].
        destruct (IH (with_logs (LogRetrying (URL pb) :: logs w2) w2) (URL pb) r)
          as (resp & w' & Hrun & Hans & Hbound).
        -- exact Hok2.
        -- unfold distinct_urls. cbn. rewrite Hbs2, Hurls. exact Hnd.
        -- unfold records_ok. cbn. rewrite Hbs2. exact Hrec1.
        -- exists p, pb. cbn. rewrite Hbs2. auto.
        -- cbn. rewrite Hbs2. lia.
        -- exists resp, w'. split; [exact Hrun|]. split; [exact Hans|].
           cbn [logs with_logs backends retries] in Hbound.
           rewrite Hbs2 in Hbound. lia.
      * destruct Hres as (Hall & Hserve). rewrite Hserve.
        pose proof (none_checked_alive_count w1 w2 Hrec1 Hall) as Hzero.
        eexists _, _. split; [reflexivity|]. unfold answered. cbn.
        rewrite Hbs2, Hzero, Hlogs. split; [right; auto|lia].
Qed.

(** X16. With pairwise distinct URLs and records that satisfy the invariant,
    every request on the default route gets an answer, after at most as
    many forwards as there are backends with the flag set.  The answer is
    either a response that the upstream gave or the balancer's own 503, and
    the 503 is only given once every backend is marked down.  Every retry
    goes with one backend marked down: the number of retries logged is at
    most the number of flags the request turned off. *)
Theorem request_is_answered (w : World) (fuel : nat) (r : Request) :
  pool_ok w -> distinct_urls w -> records_ok w ->
  (alive_count (backends w) <= fuel)%nat ->
  exists resp w',
    loadBalancer E fuel r w = (Ret resp, w') /\
    ((exists n u, roundTrip E n u r = Some resp) \/
     (resp = unavailable /\ alive_count (backends w') = 0%nat)) /\
    (retries (logs w') + alive_count (backends w')
     <= retries (logs w) + alive_count (backends w))%nat.
Proof.
  intros Hok Hnd Hrec Hfuel.
  destruct (GetNextPeer_scan E w Hok)
    as (peer & w1 & Hsel & Hbs & Hlogs & _ & Hres).
  pose proof (GetNextPeer_pool_ok E w w1 peer Hok Hsel) as Hok1.
  unfold loadBalancer. rewrite (bind_run _ _ _ _ _ Hsel).
  destruct peer as [p|].
  - destruct Hres as (k & pb & _ & _ & _ & Hpb & Hchk & _).
    rewrite (bind_load p pb) by (now rewrite Hbs). rewrite bind_log_Printf.
    destruct (failover_chain_outcome fuel
                (with_logs (LogRouting (URL pb) :: logs w1) w1) (URL pb) r)
      as (resp & w' & Hrun & Hans & Hbound).
    + exact Hok1.
    + unfold distinct_urls. cbn. now rewrite Hbs.
    + unfold records_ok. cbn. now rewrite Hbs.
    + exists p, pb. cbn. rewrite Hbs. split; [exact Hpb|].
      split; [reflexivity|]. now apply (checked_true_alive E w w1).
    + cbn. now rewrite Hbs.
    + exists resp, w'. split; [exact Hrun|]. split; [exact Hans|].
      cbn [logs with_logs backends retries] in Hbound.
      rewrite Hbs, Hlogs in Hbound. lia.
  - destruct Hres as (_ & _ & Hall). rewrite bind_log_Printf.
    pose proof (none_checked_alive_count w w1 Hrec Hall) as Hzero.
    eexists _, _. split; [reflexivity|]. cbn.
    rewrite Hbs, Hlogs, Hzero. split; [right; auto|lia].
Qed.

End Serving.

(** ** Edges *)

Section Edges.

Context (E : Env).

Lemma world_eq (w w' : World) :
  backends w' = backends w -> current w' = current w ->
  tick w' = tick w -> logs w' = logs w -> w' = w.
Proof. destruct w, w'. cbn. intros -> -> -> ->. reflexivity. Qed.

(** X17. [MarkBackendStatus] writes at most one record: the first one, in
    pool order, whose URL is the given one, also when several records have
    that URL; every other record is left as it is.  For a URL that no
    record has, the call changes nothing at all. *)
Theorem MarkBackendStatus_first_match (url : string) (alive : bool)
    (w : World) :
  exists w',
    MarkBackendStatus E url alive w = (Ret tt, w') /\
    match first_with_url url (backends w) with
    | Some (q, b) =>
        backends w !! q = Some b /\ URL b = url /\
        (forall j y, (j < q)%nat -> backends w !! j = Some y -> URL y <> url) /\
        backends w' = <[q := marked b alive (clock E (tick w))]> (backends w) /\
        (forall j, j <> q -> backends w' !! j = backends w !! j)
    | None =>
        w' = w /\ forall j y, backends w !! j = Some y -> URL y <> url
    end.
Proof.
  destruct (MarkBackendStatus_spec E url alive w)
    as (w' & Hrun & Hcur & Hlogs & Hlen & Htk & Heff).
  exists w'. split; [exact Hrun|].
  destruct (first_with_url url (backends w)) as [[q b]|] eqn:Hfind.
  - apply list_find_Some in Hfind as (Hq & Hu & Hbefore).
    destruct Heff as [Hbs _]. split; [exact Hq|]. split; [exact Hu|].
    split; [intros j y Hj Hy; now apply (Hbefore j)|].
    split; [exact Hbs|].
    intros j Hj. rewrite Hbs. now apply list_lookup_insert_ne.
  - destruct Heff as [Hbs Htick]. split; [now apply world_eq|].
    apply list_find_None in Hfind. rewrite Forall_forall in Hfind.
    intros j y Hy. apply Hfind. eapply list_elem_of_lookup_2; exact Hy.
Qed.

(** X18. On an empty pool the selector does not return nil: [NextIndex]
    divides by the length of the pool and panics, and with it the handler of
    the default route.  The two operational routes still answer, with 503,
    and a health sweep does nothing.  (This is the state that the check of
    [len(backends) == 0] in [main] keeps the server out of.) *)
Theorem empty_pool_behaviour (w : World) (fuel : nat) (r : Request) :
  backends w = [] ->
  GetNextPeer E w = (Panic "integer divide by zero", w) /\
  loadBalancer E fuel r w = (Panic "integer divide by zero", w) /\
  healthHandler E r w =
    (Ret (mkResponse StatusServiceUnavailable None
            (Text "UNHEALTHY: No healthy backends available")), w) /\
  (exists sr,
     statusHandler E r w =
       (Ret (mkResponse StatusServiceUnavailable (Some "application/json")
               (Json sr)), w) /\
     Status sr = "degraded" /\ TotalBackends sr = 0 /\
     HealthyBackends sr = 0 /\ Backends sr = []) /\
  HealthCheck E w = (Ret tt, w).
Proof.
  intros Hbs.
  assert (Hsel : GetNextPeer E w = (Panic "integer divide by zero", w)).
  { unfold GetNextPeer, NextIndex, len_backends. rewrite bind_assoc, bind_gets.
    rewrite bind_assoc, bind_gets. rewrite Hbs. reflexivity. }
  split; [exact Hsel|]. split.
  { unfold loadBalancer, bind. now rewrite Hsel. }
  assert (Hcount : countHealthyBackends E w = (Ret 0, w)).
  { unfold countHealthyBackends. rewrite bind_gets, Hbs. reflexivity. }
  split.
  { unfold healthHandler. rewrite (bind_run _ _ _ _ _ Hcount). reflexivity. }
  split.
  { eexists. split.
    - unfold statusHandler, len_backends. rewrite bind_gets.
      rewrite (bind_run _ _ _ _ _ Hcount). rewrite !bind_gets.
      rewrite Hbs. reflexivity.
    - cbn. auto. }
  unfold HealthCheck. rewrite bind_gets, Hbs. reflexivity.
Qed.

End Edges.

(** ** The order of selection *)

Section Cycle.

Context (E : Env).

Lemma window_app (N s : Z) (a b : nat) :
  window N s (a + b) = window N s a ++ window N (s + Z.of_nat a) b.
Proof.
  unfold window. rewrite seq_app, fmap_app. f_equal.
  cbn [Nat.add]. replace (seq a b) with (seq (a + 0) b) by (f_equal; lia).
  rewrite <- (fmap_add_seq a 0 b), <- list_fmap_compose.
  apply list_fmap_ext. intros _ j _. cbn. f_equal. f_equal. lia.
Qed.

Lemma window_start (N s s' : Z) (n : nat) :
  N <> 0 -> s mod N = s' mod N -> window N s n = window N s' n.
Proof.
  intros HN Hs. unfold window. apply list_fmap_ext. intros _ j _. f_equal.
  rewrite (Z.add_mod s), (Z.add_mod s') by exact HN. now rewrite Hs.
Qed.

Lemma window_rotation (w : World) :
  rotation w <$> seq 0 (length (backends w)) =
  window (Z.of_nat (length (backends w))) (current w + 1)
         (length (backends w)).
Proof. reflexivity. Qed.

Lemma filter_none {A} (P : A -> Prop) `{forall x, Decision (P x)} (l : list A) :
  (forall x, x ∈ l -> ~ P x) -> filter P l = [].
Proof.
  induction l as [|x l IH]; intros Hl; [reflexivity|].
  rewrite filter_cons_False by (apply Hl; left).
  apply IH. intros y Hy. apply Hl. now right.
Qed.

Lemma checked_alive_at (w w' : World) (q : nat) (b : Backend) (e : bool) :
  records_ok w -> backends w !! q = Some b -> checked E w w' b e ->
  alive_at (backends w) q = e.
Proof.
  intros Hrec Hb Hchk. unfold alive_at. rewrite Hb. symmetry.
  eapply record_ok_checked; [|exact Hchk].
  eapply records_ok_lookup; eassumption.
Qed.

(** One selection takes the head of the order and moves it to the back. *)
Lemma GetNextPeer_alive_order (w : World) :
  pool_ok w -> records_ok w ->
  exists w',
    GetNextPeer E w = (Ret (head (alive_order w)), w') /\
    backends w' = backends w /\ logs w' = logs w /\
    alive_order w' = tail (alive_order w) ++ option_list (head (alive_order w)).
Proof.
  intros Hok Hrec.
  destruct (GetNextPeer_scan E w Hok) as (r & w' & Hrun & Hbs & Hlogs & _ & Hres).
  pose proof Hok as [HN Hc].
  set (N := Z.of_nat (length (backends w))) in *.
  exists w'. unfold alive_order. rewrite !window_rotation, Hbs. fold N.
  destruct r as [p|].
  - destruct Hres as (k & b & Hk & Hp & Hcur & Hb & Hchk & _ & Hprev).
    rewrite Zplus_mod_idemp_l in Hp.
    assert (Hsplit : length (backends w)
                     = (Z.to_nat k + 1 + Z.to_nat (N - k - 1))%nat) by lia.
    assert (Hhead : filter (fun i => alive_at (backends w) i = true)
                      (window N (current w + 1) (Z.to_nat k + 1)) = [p]).
    { rewrite window_app, filter_app.
      rewrite filter_none.
      - unfold window. cbn [seq fmap list_fmap app].
        rewrite Z.add_0_r, Z2Nat.id, <- Hp, Nat2Z.id by lia.
        rewrite filter_cons_True, filter_nil; [reflexivity|].
        eapply checked_alive_at; eassumption.
      - intros x Hx. unfold window in Hx.
        apply list_elem_of_fmap in Hx as (j & -> & Hj%elem_of_seq).
        destruct (Hprev (Z.of_nat j) ltac:(lia)) as (b' & Hb' & Hchk').
        rewrite Zplus_mod_idemp_l in Hb'.
        rewrite (checked_alive_at w w' _ b' false Hrec Hb' Hchk').
        discriminate. }
    set (T := filter (fun i => alive_at (backends w) i = true)
                (window N (current w + 1 + Z.of_nat (Z.to_nat k + 1))
                        (Z.to_nat (N - k - 1)))).
    assert (Hw : filter (fun i => alive_at (backends w) i = true)
                   (window N (current w + 1) (length (backends w))) = p :: T).
    { rewrite Hsplit at 1. rewrite window_app, filter_app, Hhead. reflexivity. }
    assert (Hw' : filter (fun i => alive_at (backends w) i = true)
                   (window N (current w' + 1) (length (backends w)))
                  = T ++ [p]).
    { replace (length (backends w))
        with (Z.to_nat (N - k - 1) + (Z.to_nat k + 1))%nat at 1 by lia.
      rewrite window_app, filter_app. f_equal.
      - unfold T. f_equal. apply window_start; [lia|].
        rewrite Hcur, Hp, <- Z.add_assoc, Zplus_mod_idemp_l. f_equal. lia.
      - rewrite <- Hhead. f_equal. apply window_start; [lia|].
        rewrite Hcur, Hp, <- Z.add_assoc, Zplus_mod_idemp_l.
        replace (current w + 1 + k + (1 + Z.of_nat (Z.to_nat (N - k - 1))))
          with (current w + 1 + 1 * N) by lia.
        apply Z.mod_add. lia. }
    rewrite Hw, Hw'. cbn. repeat split; assumption.
  - destruct Hres as (Hcur & _ & Hall).
    assert (Hnone : forall c, filter (fun i => alive_at (backends w) i = true)
                     (window N c (length (backends w))) = []).
    { intros c. apply filter_none. intros x Hx.
      unfold alive_at. destruct (backends w !! x) as [b'|] eqn:Hb'; [|discriminate].
      rewrite <- (record_ok_checked E w w' b' false
                    (records_ok_lookup w x b' Hrec Hb') (Hall x b' Hb')).
      discriminate. }
    rewrite !Hnone. cbn. repeat split; assumption.
Qed.


Lemma cycle_step {A} (l : list A) (k : nat) :
  (tail l ++ option_list (head l)) !! (k mod length l)%nat
  = l !! (S k mod length l)%nat.
Proof.
  destruct l as [|p T]; [reflexivity|].
  cbn [tail head option_list]. set (m := length (p :: T)).
  assert (Hm : m = S (length T)) by reflexivity.
  pose proof (Nat.mod_upper_bound k m ltac:(lia)) as Hr.
  replace (S k) with (k + 1)%nat by lia.
  rewrite <- Nat.Div0.add_mod_idemp_l.
  destruct (decide (k mod m + 1 < m)%nat) as [Hlt|Hge].
  - rewrite (Nat.mod_small (k mod m + 1)) by exact Hlt.
    rewrite lookup_app_l by lia.
    replace (k mod m + 1)%nat with (S (k mod m)) by lia. reflexivity.
  - replace (k mod m + 1)%nat with m by lia.
    rewrite Nat.Div0.mod_same, lookup_app_r by lia.
    replace (k mod m - length T)%nat with 0%nat by lia. reflexivity.
Qed.

Lemma selections_alive_order (n : nat) :
  forall w, pool_ok w -> records_ok w ->
  exists w',
    selections E n w
    = (Ret ((fun k => alive_order w !! (k mod length (alive_order w))%nat)
              <$> seq 0 n), w') /\
    backends w' = backends w.
Proof.
  induction n as [|n IH]; intros w Hok Hrec.
  - exists w. split; reflexivity.
  - destruct (GetNextPeer_alive_order w Hok Hrec)
      as (w1 & Hrun & Hbs & _ & Hord).
    assert (Hok1 : pool_ok w1) by (eapply GetNextPeer_pool_ok; eassumption).
    assert (Hrec1 : records_ok w1) by (unfold records_ok; now rewrite Hbs).
    destruct (IH w1 Hok1 Hrec1) as (w' & Hsel & Hbs').
    exists w'. split; [|congruence].
    cbn [selections]. rewrite (bind_run _ _ _ _ _ Hrun).
    rewrite (bind_run _ _ _ _ _ Hsel). unfold ret. f_equal.
    cbn [seq fmap list_fmap]. f_equal. f_equal.
    + rewrite Nat.Div0.mod_0_l. now destruct (alive_order w).
    + rewrite <- fmap_S_seq, <- list_fmap_compose.
      apply list_fmap_ext. intros _ k _. cbn.
      assert (Hlen : length (alive_order w1) = length (alive_order w)).
      { rewrite Hord. destruct (alive_order w); cbn; [reflexivity|].
        rewrite length_app. cbn. lia. }
      rewrite Hlen, Hord. apply cycle_step.
Qed.

Lemma alive_order_elem (w : World) (i : nat) :
  pool_ok w -> i ∈ alive_order w <-> alive_at (backends w) i = true.
Proof.
  intros Hok. unfold alive_order.
  rewrite list_elem_of_filter, (rotation_permutation w Hok), elem_of_seq.
  split; [tauto|]. intros Ha. split; [exact Ha|].
  unfold alive_at in Ha. destruct (backends w !! i) eqn:Hb; [|discriminate].
  apply lookup_lt_Some in Hb. lia.
Qed.

Lemma alive_order_NoDup (w : World) : pool_ok w -> NoDup (alive_order w).
Proof.
  intros Hok. apply NoDup_filter.
  rewrite (rotation_permutation w Hok). apply NoDup_seq.
Qed.

(** X19. On records that satisfy the invariant, consecutive selections
    cycle through the backends whose flag is set, in pool order from the
    slot after the cursor: with [m] such backends, call number [k] (from 0)
    returns entry [k mod m] of that order, and every call returns nil when
    there is none.  The order holds each backend with the flag set exactly
    once, and no other; the records are left as they were. *)
Theorem selections_cycle_over_alive (w : World) (n : nat) :
  pool_ok w -> records_ok w ->
  let order := alive_order w in
  exists w',
    selections E n w
    = (Ret ((fun k => order !! (k mod length order)%nat) <$> seq 0 n), w') /\
    backends w' = backends w /\
    NoDup order /\
    forall i, i ∈ order <->
              exists b, backends w !! i = Some b /\ Alive b = true.
Proof.
  intros Hok Hrec order.
  destruct (selections_alive_order n w Hok Hrec) as (w' & Hsel & Hbs).
  exists w'. repeat split; try assumption.
  - now apply alive_order_NoDup.
  - intros Hi%alive_order_elem; [|exact Hok]. unfold alive_at in Hi.
    destruct (backends w !! i) as [b|]; [|discriminate]. now exists b.
  - intros (b & Hb & Ha). apply alive_order_elem; [exact Hok|].
    unfold alive_at. now rewrite Hb.
Qed.

End Cycle.

(** ** The sample states: instances *)

Lemma sample_records_ok : records_ok Sample.w0.
Proof. repeat constructor. Qed.

Lemma mixed_pool_ok : pool_ok SampleRuns.w_mixed.
Proof. unfold pool_ok. cbn. lia. Qed.

Lemma mixed_records_ok : records_ok SampleRuns.w_mixed.
Proof. repeat constructor; discriminate. Qed.



Lemma main_init_pool_witness :
  backends SampleStartup.w_zero = [] /\ current SampleStartup.w_zero = 0 /\
  exists o w',
    main_init Sample.E SampleStartup.TrimSpace SampleStartup.url_Parse
      SampleStartup.env_BACKENDS SampleStartup.w_zero = (Ret o, w').
Proof.
  split; [reflexivity|]. split; [reflexivity|].
  destruct (main_init_pool Sample.E SampleStartup.TrimSpace
              SampleStartup.url_Parse SampleStartup.env_BACKENDS
              SampleStartup.w_zero eq_refl eq_refl)
    as (o & w' & Hrun & _).
  exists o, w'. exact Hrun.
Defined.

Lemma eligibility_is_the_flag_witness :
  records_ok SampleRuns.w_mixed /\
  exists w', IsAlive Sample.E 1 SampleRuns.w_mixed = (Ret false, w').
Proof.
  split; [exact mixed_records_ok|].
  destruct (eligibility_is_the_flag Sample.E SampleRuns.w_mixed
              mixed_records_ok) as [Hflag _].
  destruct (Hflag 1%nat (Sample.down Sample.app2) eq_refl)
    as (_ & w' & Hrun & _).
  exists w'. exact Hrun.
Defined.

Lemma status_lists_the_pool_witness :
  pool_ok SampleRuns.w_mixed /\
  exists resp sr w',
    statusHandler Sample.E Sample.req SampleRuns.w_mixed = (Ret resp, w') /\
    RespBody resp = Json sr /\ TotalBackends sr = 3.
Proof.
  split; [exact mixed_pool_ok|].
  destruct (status_lists_the_pool Sample.E SampleRuns.w_mixed Sample.req
              mixed_pool_ok)
    as (resp & sr & w' & Hrun & Hbody & _ & _ & Htotal & _).
  exists resp, sr, w'. split; [exact Hrun|]. split; [exact Hbody|exact Htotal].
Defined.

Lemma status_shows_the_flags_witness :
  pool_ok SampleRuns.w_mixed /\ records_ok SampleRuns.w_mixed /\
  exists w',
    statusHandler Sample.E Sample.req SampleRuns.w_mixed
    = (Ret (mkResponse StatusOK (Some "application/json")
              (Json (mkStatusResponse "operational" 3 2 0
                       (snapshot <$> backends SampleRuns.w_mixed)))), w').
Proof.
  split; [exact mixed_pool_ok|]. split; [exact mixed_records_ok|].
  destruct (status_shows_the_flags Sample.E SampleRuns.w_mixed Sample.req
              mixed_pool_ok mixed_records_ok) as (w' & Hrun & _).
  exists w'. exact Hrun.
Defined.

Lemma health_counts_the_flags_witness :
  records_ok SampleRuns.w_mixed /\
  Z.of_nat (length (backends SampleRuns.w_mixed)) < 2 ^ 60 /\
  exists w',
    healthHandler Sample.E Sample.health_req SampleRuns.w_mixed
    = (Ret (mkResponse StatusOK None
              (Text "HEALTHY: 2/3 backends available")), w').
Proof.
  assert (Hlen : Z.of_nat (length (backends SampleRuns.w_mixed)) < 2 ^ 60)
    by (cbn; lia).
  split; [exact mixed_records_ok|]. split; [exact Hlen|].
  destruct (health_counts_the_flags Sample.E SampleRuns.w_mixed
              Sample.health_req mixed_records_ok Hlen) as (w' & Hrun & _).
  exists w'. exact Hrun.
Defined.

Lemma probe_decides_the_mark_witness :
  backends SampleRuns.w_mixed !! 1%nat = Some (Sample.down Sample.app2) /\
  FailureCount (Sample.down Sample.app2) <= 3 /\
  exists w',
    HealthCheck_body Sample.E 1 SampleRuns.w_mixed = (Ret tt, w') /\
    backends w' !! 1%nat = Some (mkBackend Sample.app2 true 0 2000000).
Proof.
  assert (Hfc : FailureCount (Sample.down Sample.app2) <= 3) by (cbn; lia).
  split; [reflexivity|]. split; [exact Hfc|].
  destruct (probe_decides_the_mark Sample.E SampleRuns.w_mixed 1
              (Sample.down Sample.app2) eq_refl Hfc) as (w' & Hrun & Hbs & _).
  exists w'. split; [exact Hrun|]. rewrite Hbs. reflexivity.
Defined.

Lemma tripped_backend_is_probed_again_witness :
  backends SampleRuns.w_broken !! 0%nat = Some (SampleRuns.broken Sample.app1) /\
  3 < FailureCount (SampleRuns.broken Sample.app1) /\
  Alive (SampleRuns.broken Sample.app1) = false /\
  30 * Second <= clock SampleRuns.E_later (S (tick SampleRuns.w_broken))
                 - LastCheck (SampleRuns.broken Sample.app1) /\
  exists w' b',
    HealthCheck_body SampleRuns.E_later 0 SampleRuns.w_broken = (Ret tt, w') /\
    backends w' !! 0%nat = Some b' /\ Alive b' = true /\ FailureCount b' = 0.
Proof.
  assert (Hfc : 3 < FailureCount (SampleRuns.broken Sample.app1))
    by (cbn; lia).
  assert (Hlate : 30 * Second
                  <= clock SampleRuns.E_later (S (tick SampleRuns.w_broken))
                     - LastCheck (SampleRuns.broken Sample.app1))
    by (cbn; unfold Second; lia).
  split; [reflexivity|]. split; [exact Hfc|]. split; [reflexivity|].
  split; [exact Hlate|].
  destruct (tripped_backend_is_probed_again SampleRuns.E_later
              SampleRuns.w_broken 0 (SampleRuns.broken Sample.app1)
              eq_refl Hfc eq_refl Hlate) as (w' & Hrun & Hbs & _).
  exists w', (marked (SampleRuns.broken Sample.app1) true
                (clock SampleRuns.E_later 5)).
  split; [exact Hrun|]. rewrite Hbs. repeat split.
Defined.


Lemma served_without_failover_witness :
  pool_ok SampleRuns.w_last /\
  backends SampleRuns.w_last !! 0%nat = Some (Sample.fresh Sample.app1) /\
  exists w',
    loadBalancer Sample.E 1 Sample.req SampleRuns.w_last
    = (Ret (mkResponse StatusOK None (Text "ok")), w') /\
    backends w' = backends SampleRuns.w_last /\
    logs w' = [LogRouting Sample.app1].
Proof.
  assert (Hok : pool_ok SampleRuns.w_last) by (unfold pool_ok; cbn; lia).
  split; [exact Hok|]. split; [reflexivity|].
  destruct (served_without_failover Sample.E SampleRuns.w_last
              (snd (GetNextPeer Sample.E SampleRuns.w_last)) 0 0
              (Sample.fresh Sample.app1) Sample.req
              (mkResponse StatusOK None (Text "ok")) Hok eq_refl eq_refl
              eq_refl) as (w' & Hrun & Hbs & _ & Hlogs).
  exists w'. split; [exact Hrun|]. split; [exact Hbs|exact Hlogs].
Defined.

Lemma request_is_answered_witness :
  pool_ok Sample.w0 /\ distinct_urls Sample.w0 /\ records_ok Sample.w0 /\
  (alive_count (backends Sample.w0) <= 3)%nat /\
  exists resp w', loadBalancer Sample.E 3 Sample.req Sample.w0 = (Ret resp, w').
Proof.
  assert (Hfuel : (alive_count (backends Sample.w0) <= 3)%nat) by (cbn; lia).
  split; [exact sample_pool_ok|]. split; [exact sample_distinct_urls|].
  split; [exact sample_records_ok|]. split; [exact Hfuel|].
  destruct (request_is_answered Sample.E Sample.w0 3 Sample.req
              sample_pool_ok sample_distinct_urls sample_records_ok Hfuel)
    as (resp & w' & Hrun & _).
  exists resp, w'. exact Hrun.
Defined.

Lemma empty_pool_behaviour_witness :
  backends SampleStartup.w_zero = [] /\
  loadBalancer Sample.E 1 Sample.req SampleStartup.w_zero
  = (Panic "integer divide by zero", SampleStartup.w_zero).
Proof.
  split; [reflexivity|].
  apply (empty_pool_behaviour Sample.E SampleStartup.w_zero 1 Sample.req
           eq_refl).
Defined.

Lemma selections_cycle_over_alive_witness :
  pool_ok SampleRuns.w_mixed /\ records_ok SampleRuns.w_mixed /\
  exists w',
    selections Sample.E 5 SampleRuns.w_mixed
    = (Ret [Some 2%nat; Some 0%nat; Some 2%nat; Some 0%nat; Some 2%nat], w').
Proof.
  split; [exact mixed_pool_ok|]. split; [exact mixed_records_ok|].
  destruct (selections_cycle_over_alive Sample.E SampleRuns.w_mixed 5
              mixed_pool_ok mixed_records_ok) as (w' & Hrun & _).
  exists w'. exact Hrun.
Defined.
